(** * The instance registry of the Ghidra MCP bridge

    A shallow embedding of [src/bridge/state.py] (registry, validator,
    discovery scanner, background refresher, current-instance resolver)
    and of the instance tools of [src/bridge/tools/instance_tools.py],
    followed by the properties of the registry.

    Modelling decisions
    - The module globals [active_instances], [current_instance_port] and
      [instances_lock] are the fields of one state record, threaded
      through every operation by a small state-and-exception monad.
    - [active_instances] is a Python dict: an association list in
      insertion order (the refresher iterates over it), updated in place.
      A record ([project_info]) is a dict whose order is never observed:
      a [gmap string json].
    - The network is an oracle: the n-th request issued by the process,
      for a given URL, either raises [requests.exceptions.RequestException]
      (the base class of what [requests] raises) or returns a status
      flag ([response.ok]) and a body that [response.json()] either
      parses or rejects. Timeouts and headers have no other effect.
    - A call is one step of a sequential process: the calls of the main
      thread and the cycles of the refresher thread interleave as whole
      operations. [lock_held] is true when the running thread itself
      holds [instances_lock]; [threading.Lock] is not reentrant, so
      acquiring it then never returns ([Hang]).
    - Every request, acquire and release is appended to a trace.
    - [periodic_discovery] is its loop body, [periodic_discovery_cycle];
      [time.sleep] and the [print] diagnostics are not modelled. *)

From Stdlib Require Import ZArith String List Lia Bool.
From stdpp Require Import base strings list pretty gmap.

Open Scope Z_scope.

(** ** Python values *)

(** A Python float: [FFinite m e] is [m * 2^e]. *)
Inductive pyfloat :=
| FFinite (m e : Z)
| FInf (neg : bool)
| FNan.

(** What [response.json()] returns. An object carries the items of the
    parsed dict, one per key. *)
#[local] Unset Elimination Schemes.
Inductive json :=
| JNull
| JBool (b : bool)
| JInt (z : Z)
| JFloat (f : pyfloat)
| JStr (s : string)
| JArr (xs : list json)
| JObj (kvs : list (string * json)).
#[local] Set Elimination Schemes.

Inductive exn :=
| ValueError (msg : string)
| TypeError
| KeyError
| AttributeError.

Definition float_eq_int (f : pyfloat) (n : Z) : bool :=
  match f with
  | FFinite m e => if 0 <=? e then m * 2 ^ e =? n else m =? n * 2 ^ (- e)
  | FInf _ => false
  | FNan => false
  end.

(** [v == n] for an int [n]. *)
Definition py_eq_int (v : json) (n : Z) : bool :=
  match v with
  | JInt z => z =? n
  | JBool b => (if b then 1 else 0) =? n
  | JFloat f => float_eq_int f n
  | _ => false
  end.

(** [v != n] for an int [n]. *)
Definition py_ne_int (v : json) (n : Z) : bool := negb (py_eq_int v n).

(** [bool(v)]. *)
Definition py_truthy (v : json) : bool :=
  match v with
  | JNull => false
  | JBool b => b
  | JInt z => negb (z =? 0)
  | JFloat (FFinite m _) => negb (m =? 0)
  | JFloat _ => true
  | JStr s => negb (String.eqb s "")
  | JArr xs => match xs with [] => false | _ => true end
  | JObj kvs => match kvs with [] => false | _ => true end
  end.

Definition is_substring (needle s : string) : bool :=
  match String.index 0 needle s with
  | Some _ => true
  | None => false
  end.

Definition is_str (key : string) (v : json) : bool :=
  match v with
  | JStr s => String.eqb s key
  | _ => false
  end.

Fixpoint obj_lookup (key : string) (kvs : list (string * json)) : option json :=
  match kvs with
  | [] => None
  | (k, v) :: kvs' => if String.eqb k key then Some v else obj_lookup key kvs'
  end.

(** [key in v] for a str [key]; [inl TypeError] where Python raises. *)
Definition py_contains (key : string) (v : json) : exn + bool :=
  match v with
  | JObj kvs => inr (match obj_lookup key kvs with Some _ => true | None => false end)
  | JArr xs => inr (existsb (is_str key) xs)
  | JStr s => inr (is_substring key s)
  | _ => inl TypeError
  end.

(** [v[key]] for a str [key]. *)
Definition py_getitem (key : string) (v : json) : exn + json :=
  match v with
  | JObj kvs => match obj_lookup key kvs with Some x => inr x | None => inl KeyError end
  | _ => inl TypeError
  end.

(** [d.get(key, default)] on a parsed JSON object. *)
Definition obj_get (key : string) (default : json) (kvs : list (string * json)) : json :=
  match obj_lookup key kvs with
  | Some x => x
  | None => default
  end.

(** [s.split(":", 1)] when [":" in s]. *)
Definition split_colon (s : string) : option (string * string) :=
  match String.index 0 ":" s with
  | Some n => Some (String.substring 0 n s,
                    String.substring (S n) (String.length s - S n) s)
  | None => None
  end.

(** [file_path[1:]] when [file_path.startswith("/")]. *)
Definition strip_slash (file_path : string) : string :=
  if String.prefix "/" file_path
  then String.substring 1 (String.length file_path - 1) file_path
  else file_path.

(** ** Dictionaries in insertion order *)

Section Dict.
Context {V : Type}.

Fixpoint dict_get (k : Z) (d : list (Z * V)) : option V :=
  match d with
  | [] => None
  | (k', v) :: d' => if k' =? k then Some v else dict_get k d'
  end.

(** [k in d] *)
Definition dict_mem (k : Z) (d : list (Z * V)) : bool :=
  match dict_get k d with
  | Some _ => true
  | None => false
  end.

(** [d[k] = v]: an existing key keeps its position. *)
Fixpoint dict_set (k : Z) (v : V) (d : list (Z * V)) : list (Z * V) :=
  match d with
  | [] => [(k, v)]
  | (k', v') :: d' => if k' =? k then (k, v) :: d' else (k', v') :: dict_set k v d'
  end.

(** The dict after [del d[k]]. *)
Fixpoint dict_del (k : Z) (d : list (Z * V)) : list (Z * V) :=
  match d with
  | [] => []
  | (k', v') :: d' => if k' =? k then dict_del k d' else (k', v') :: dict_del k d'
  end.
End Dict.

(** ** State, network and monad *)

Definition REQUIRED_API_VERSION : Z := 2010.
Definition DEFAULT_GHIDRA_PORT : Z := 8192.
Definition DEFAULT_GHIDRA_HOST : string := "localhost".

(** [range(DEFAULT_GHIDRA_PORT, DEFAULT_GHIDRA_PORT + 10)] *)
Definition QUICK_DISCOVERY_RANGE : list Z :=
  map (fun i => DEFAULT_GHIDRA_PORT + Z.of_nat i) (seq 0 10).
(** [range(DEFAULT_GHIDRA_PORT, DEFAULT_GHIDRA_PORT + 20)] *)
Definition FULL_DISCOVERY_RANGE : list Z :=
  map (fun i => DEFAULT_GHIDRA_PORT + Z.of_nat i) (seq 0 20).

(** The outcome of [requests.get]: [HErr reason] is a raised
    [RequestException] whose text is [reason]; [HResp ok body] a
    response with [response.ok] and the value of [response.json()]
    ([None] when it raises). *)
Inductive http_result :=
| HErr (reason : string)
| HResp (ok : bool) (body : option json).

Inductive event :=
| EAcquire
| ERelease
| EHttp (url : string).

Record bridge := mkBridge {
  active_instances : list (Z * gmap string json);
  current_instance_port : Z;
  lock_held : bool;
  requests_made : nat;
  trace : list event
}.

(** The module's globals when it is imported. *)
Definition initial_bridge : bridge :=
  {| active_instances := [];
     current_instance_port := DEFAULT_GHIDRA_PORT;
     lock_held := false;
     requests_made := 0;
     trace := [] |}.

Definition set_store (d : list (Z * gmap string json)) (st : bridge) : bridge :=
  {| active_instances := d;
     current_instance_port := current_instance_port st;
     lock_held := lock_held st;
     requests_made := requests_made st;
     trace := trace st |}.

(** How a call ends: it returns, raises, or blocks for ever. *)
Inductive outcome (A : Type) :=
| Ret (a : A)
| Raise (e : exn)
| Hang.
Arguments Ret {A} a.
Arguments Raise {A} e.
Arguments Hang {A}.

Definition M (A : Type) : Type := bridge -> outcome A * bridge.

Definition ret {A} (a : A) : M A := fun st => (Ret a, st).
Definition raise {A} (e : exn) : M A := fun st => (Raise e, st).

Definition bind {A B} (m : M A) (k : A -> M B) : M B :=
  fun st =>
    match m st with
    | (Ret a, st') => k a st'
    | (Raise e, st') => (Raise e, st')
    | (Hang, st') => (Hang, st')
    end.

Notation "x <- m ;; k" := (bind m (fun x => k))
  (at level 90, m at next level, right associativity).
Notation "m ;;; k" := (bind m (fun _ => k))
  (at level 90, right associativity).

Definition get_store : M (list (Z * gmap string json)) :=
  fun st => (Ret (active_instances st), st).

Definition put_store (d : list (Z * gmap string json)) : M unit :=
  fun st => (Ret tt, set_store d st).

Definition lift_exn {A} (r : exn + A) : M A :=
  match r with
  | inl e => raise e
  | inr a => ret a
  end.

(** [instances_lock.acquire()] *)
Definition acquire : M unit :=
  fun st =>
    if lock_held st then (Hang, st)
    else (Ret tt,
          {| active_instances := active_instances st;
             current_instance_port := current_instance_port st;
             lock_held := true;
             requests_made := requests_made st;
             trace := trace st ++ [EAcquire] |}).

(** [instances_lock.release()] *)
Definition release : M unit :=
  fun st =>
    (Ret tt,
     {| active_instances := active_instances st;
        current_instance_port := current_instance_port st;
        lock_held := false;
        requests_made := requests_made st;
        trace := trace st ++ [ERelease] |}).

(** [with instances_lock: body]: released on return and on exception. *)
Definition with_lock {A} (body : M A) : M A :=
  fun st =>
    match acquire st with
    | (Ret _, st1) =>
        match body st1 with
        | (Hang, st2) => (Hang, st2)
        | (r, st2) => (r, snd (release st2))
        end
    | (Raise e, st1) => (Raise e, st1)
    | (Hang, st1) => (Hang, st1)
    end.

(** [try: body except Exception: pass] *)
Definition try_pass (body : M unit) : M unit :=
  fun st =>
    match body st with
    | (Raise _, st') => (Ret tt, st')
    | r => r
    end.

(** ** The registry operations *)

Section Registry.
(** [GHIDRA_HOST], from the environment. *)
Variable GHIDRA_HOST : string.
(** [str(v)] for the values whose text Python computes by [repr]
    (floats, lists, dicts). *)
Variable py_repr : json -> string.
(** The network: request number and URL to outcome. *)
Variable net : nat -> string -> http_result.

(** [f"{v}"] *)
Definition py_str (v : json) : string :=
  match v with
  | JNull => "None"
  | JBool true => "True"
  | JBool false => "False"
  | JInt z => pretty z
  | JStr s => s
  | _ => py_repr v
  end.

(** [requests.get(url, ...)] *)
Definition http_get (url : string) : M http_result :=
  fun st =>
    (Ret (net (requests_made st) url),
     {| active_instances := active_instances st;
        current_instance_port := current_instance_port st;
        lock_held := lock_held st;
        requests_made := S (requests_made st);
        trace := trace st ++ [EHttp url] |}).

(** [f"http://{host}:{port}"] *)
Definition instance_url (host : string) (port : Z) : string :=
  "http://" +:+ host +:+ ":" +:+ pretty port.

Definition mismatch_message (api_version : json) : string :=
  "API version mismatch: Plugin reports version " +:+ py_str api_version +:+
  ", but bridge requires version " +:+ pretty REQUIRED_API_VERSION.

(** Lines 74-98 of [register_instance]: the handshake body.
    [inl msg] is the early [return error_msg]; [inr info] falls
    through to the metadata request, also when parsing raised. *)
Definition parse_plugin_version (project_info : gmap string json)
    (body : option json) : string + gmap string json :=
  match body with
  | None => inr project_info
  | Some version_data =>
      match py_contains "result" version_data with
      | inr true =>
          match py_getitem "result" version_data with
          | inr (JObj result) =>
              let plugin_version := obj_get "plugin_version" (JStr "") result in
              let api_version := obj_get "api_version" (JInt 0) result in
              let project_info :=
                <["api_version" := api_version]>
                  (<["plugin_version" := plugin_version]> project_info) in
              if py_ne_int api_version REQUIRED_API_VERSION
              then inl (mismatch_message api_version)
              else inr project_info
          | _ => inr project_info
          end
      | _ => inr project_info
      end
  end.

(** The assignments after the [programId] test (lines 117-123 and
    225-230); [_links] is copied by [register_instance] only. *)
Definition set_program_fields (with_links : bool)
    (result : list (string * json)) (info : gmap string json) : gmap string json :=
  let info := <["file" := obj_get "name" (JStr "") result]> info in
  let info := <["language_id" := obj_get "languageId" (JStr "") result]> info in
  let info := <["compiler_spec_id" := obj_get "compilerSpecId" (JStr "") result]> info in
  let info := <["image_base" := obj_get "image_base" (JStr "") result]> info in
  if with_links then
    match obj_lookup "_links" result with
    | Some links => <["_links" := links]> info
    | None => info
    end
  else info.

(** The body of the [/program] response applied to a record (lines
    105-125 and 214-235). Every exception is caught by the caller's
    [except Exception] and leaves the record as it was. *)
Definition parse_program (with_links : bool) (info : gmap string json)
    (body : option json) : gmap string json :=
  match body with
  | None => info
  | Some info_data =>
      match py_contains "result" info_data with
      | inr true =>
          match py_getitem "result" info_data with
          | inr (JObj result) =>
              let program_id := obj_get "programId" (JStr "") result in
              match py_contains ":" program_id with
              | inl _ => info
              | inr false => set_program_fields with_links result info
              | inr true =>
                  match program_id with
                  | JStr s =>
                      match split_colon s with
                      | Some (project_name, file_path) =>
                          set_program_fields with_links result
                            (<["path" := JStr (strip_slash file_path)]>
                               (<["project" := JStr project_name]> info))
                      | None => info
                      end
                  | _ => info
                  end
              end
          | _ => info
          end
      | _ => info
      end
  end.

(** Lines 100-127 and 209-237: the best-effort [/program] request. *)
Definition fetch_program (with_links : bool) (url : string)
    (info : gmap string json) : M (gmap string json) :=
  info_response <- http_get (url +:+ "/program") ;;
  match info_response with
  | HResp true body => ret (parse_program with_links info body)
  | _ => ret info
  end.

Definition register_instance (port : Z) (url : option string) : M string :=
  let url := match url with
             | Some u => u
             | None => instance_url GHIDRA_HOST port
             end in
  response <- http_get (url +:+ "/plugin-version") ;;
  match response with
  | HErr reason =>
      ret ("Error: Could not connect to instance at " +:+ url +:+ ": " +:+ reason)
  | HResp false _ =>
      ret ("Error: Instance at " +:+ url +:+ " is not responding properly to HATEOAS API")
  | HResp true body =>
      match parse_plugin_version {["url" := JStr url]} body with
      | inl error_msg => ret error_msg
      | inr project_info =>
          project_info <- fetch_program true url project_info ;;
          with_lock (d <- get_store ;; put_store (dict_set port project_info d)) ;;;
          ret ("Registered instance on port " +:+ pretty port +:+ " at " +:+ url)
      end
  end.

Definition get_instance_port (port : option Z) : M Z :=
  fun st =>
    let port := match port with
                | Some p => if p =? 0 then current_instance_port st else p
                | None => current_instance_port st
                end in
    if dict_mem port (active_instances st) then (Ret port, st)
    else
      (register_instance port None ;;;
       d <- get_store ;;
       if dict_mem port d then ret port
       else raise (ValueError ("No active Ghidra instance on port " +:+ pretty port))) st.

Definition record_url (info : gmap string json) : M json :=
  match info !! "url" with
  | Some u => ret u
  | None => raise KeyError
  end.

Definition get_instance_url (port : Z) : M json :=
  r <- with_lock
         (d <- get_store ;;
          match dict_get port d with
          | Some info => u <- record_url info ;; ret (Some u)
          | None =>
              if (8192 <=? port) && (port <=? 65535) then
                register_instance port None ;;;
                d <- get_store ;;
                match dict_get port d with
                | Some info => u <- record_url info ;; ret (Some u)
                | None => ret None
                end
              else ret None
          end) ;;
  match r with
  | Some u => ret u
  | None => ret (JStr (instance_url GHIDRA_HOST port))
  end.

Definition set_current_port (port : Z) : M unit :=
  fun st =>
    (Ret tt,
     {| active_instances := active_instances st;
        current_instance_port := port;
        lock_held := lock_held st;
        requests_made := requests_made st;
        trace := trace st |}).

Definition get_current_port : M Z :=
  fun st => (Ret (current_instance_port st), st).

(** [except (ValueError, KeyError): ...; continue] *)
Definition catch_value_key {A} (body handler : M A) : M A :=
  fun st =>
    match body st with
    | (Raise (ValueError _), st') => handler st'
    | (Raise KeyError, st') => handler st'
    | r => r
    end.

(** [info.get(key, "")] on a stored record. *)
Definition info_get (key : string) (info : gmap string json) : json :=
  match info !! key with
  | Some v => v
  | None => JStr ""
  end.

(** Lines 165-182: the entry appended to [found_instances]. *)
Definition discovery_entry (port : Z) (url : string) (json_result : json)
    (result : string) (d : list (Z * gmap string json)) : gmap string json :=
  let instance_info : gmap string json :=
    <["url" := JStr url]> {["port" := JInt port]} in
  let instance_info :=
    match json_result with
    | JObj r =>
        <["api_version" := obj_get "api_version" (JStr "unknown") r]>
          (<["plugin_version" := obj_get "plugin_version" (JStr "unknown") r]>
             instance_info)
    | _ =>
        <["api_version" := JStr "unknown"]>
          (<["plugin_version" := JStr "unknown"]> instance_info)
    end in
  let instance_info :=
    match dict_get port d with
    | Some info =>
        <["file" := info_get "file" info]>
          (<["project" := info_get "project" info]> instance_info)
    | None => instance_info
    end in
  <["result" := JStr result]> instance_info.

(** Lines 162-183: a success response whose body parsed. A
    [TypeError] is caught by neither handler of the loop body. *)
Definition discover_body (port : Z) (url : string) (json_data : json)
    (found_instances : list (gmap string json)) : M (list (gmap string json)) :=
  has_success <- lift_exn (py_contains "success" json_data) ;;
  if negb has_success then ret found_instances else
  success <- lift_exn (py_getitem "success" json_data) ;;
  if negb (py_truthy success) then ret found_instances else
  has_result <- lift_exn (py_contains "result" json_data) ;;
  if negb has_result then ret found_instances else
  result <- register_instance port (Some url) ;;
  json_result <- lift_exn (py_getitem "result" json_data) ;;
  d <- get_store ;;
  ret (found_instances ++ [discovery_entry port url json_result result d]).

(** One iteration of the loop of [_discover_instances]. *)
Definition discover_port (scan_host : string) (port : Z)
    (found_instances : list (gmap string json)) : M (list (gmap string json)) :=
  d <- get_store ;;
  if dict_mem port d then ret found_instances else
  let url := instance_url scan_host port in
  response <- http_get (url +:+ "/plugin-version") ;;
  match response with
  | HErr _ => ret found_instances
  | HResp false _ => ret found_instances
  | HResp true None => ret found_instances
  | HResp true (Some json_data) =>
      catch_value_key (discover_body port url json_data found_instances)
                      (ret found_instances)
  end.

Fixpoint discover_loop (scan_host : string) (port_range : list Z)
    (found_instances : list (gmap string json)) : M (list (gmap string json)) :=
  match port_range with
  | [] => ret found_instances
  | port :: rest =>
      found_instances <- discover_port scan_host port found_instances ;;
      discover_loop scan_host rest found_instances
  end.

(** Returns [(found, instances)]. *)
Definition _discover_instances (port_range : list Z) (host : option string)
    : M (nat * list (gmap string json)) :=
  let scan_host := match host with
                   | Some h => h
                   | None => GHIDRA_HOST
                   end in
  found_instances <- discover_loop scan_host port_range [] ;;
  ret (length found_instances, found_instances).

(** The loop body of the liveness sweep (lines 202-239); the result
    says whether the port goes to [ports_to_remove]. The record of
    the store is mutated in place. *)
Definition sweep_instance (port : Z) (info : gmap string json) : M bool :=
  url <- record_url info ;;
  let url := py_str url in
  response <- http_get (url +:+ "/plugin-version") ;;
  match response with
  | HErr _ => ret true
  | HResp false _ => ret true
  | HResp true _ =>
      info <- fetch_program false url info ;;
      d <- get_store ;;
      put_store (dict_set port info d) ;;;
      ret false
  end.

Fixpoint sweep (items : list (Z * gmap string json)) (ports_to_remove : list Z)
    : M (list Z) :=
  match items with
  | [] => ret ports_to_remove
  | (port, info) :: rest =>
      dead <- sweep_instance port info ;;
      sweep rest (if dead then ports_to_remove ++ [port] else ports_to_remove)
  end.

(** [del active_instances[port]] *)
Definition del_instance (port : Z) : M unit :=
  d <- get_store ;;
  if dict_mem port d then put_store (dict_del port d) else raise KeyError.

Fixpoint remove_ports (ports_to_remove : list Z) : M unit :=
  match ports_to_remove with
  | [] => ret tt
  | port :: rest => del_instance port ;;; remove_ports rest
  end.

(** Lines 199-243: the sweep and the removals, under the lock. *)
Definition liveness_sweep : M unit :=
  with_lock
    (d <- get_store ;;
     ports_to_remove <- sweep d [] ;;
     remove_ports ports_to_remove).

(** One iteration of the [while True] of [periodic_discovery],
    without the [time.sleep(30)]. *)
Definition periodic_discovery_cycle : M unit :=
  try_pass
    (_discover_instances FULL_DISCOVERY_RANGE None ;;;
     liveness_sweep).

Definition bootstrap_instances : M unit :=
  register_instance DEFAULT_GHIDRA_PORT
    (Some (instance_url GHIDRA_HOST DEFAULT_GHIDRA_PORT)) ;;;
  _discover_instances QUICK_DISCOVERY_RANGE None ;;;
  ret tt.

(** *** [tools/instance_tools.py] *)

Definition list_entry (port : Z) (info : gmap string json) : M (gmap string json) :=
  url <- record_url info ;;
  ret (<["file" := info_get "file" info]>
         (<["project" := info_get "project" info]>
            (<["url" := url]> {["port" := JInt port]}))).

Fixpoint list_entries (items : list (Z * gmap string json))
    : M (list (gmap string json)) :=
  match items with
  | [] => ret []
  | (port, info) :: rest =>
      e <- list_entry port info ;;
      es <- list_entries rest ;;
      ret (e :: es)
  end.

Definition instances_discover (host : option string) : M (list (gmap string json)) :=
  _discover_instances QUICK_DISCOVERY_RANGE host ;;;
  with_lock (d <- get_store ;; list_entries d).

Definition instances_list : M (list (gmap string json)) :=
  instances_discover None.

Definition instances_register (port : Z) (url : option string) : M string :=
  register_instance port url.

Definition instances_unregister (port : Z) : M string :=
  with_lock
    (d <- get_store ;;
     if dict_mem port d then
       del_instance port ;;;
       ret ("Unregistered instance on port " +:+ pretty port)
     else ret ("No instance found on port " +:+ pretty port)).

Definition instances_use (port : Z) : M string :=
  d <- get_store ;;
  registered <-
    (if dict_mem port d then ret true
     else register_instance port None ;;;
          d <- get_store ;; ret (dict_mem port d)) ;;
  if negb registered
  then ret ("Error: No active Ghidra instance found on port " +:+ pretty port)
  else
    set_current_port port ;;;
    with_lock
      (d <- get_store ;;
       match dict_get port d with
       | None => raise KeyError
       | Some info =>
           let program := match info !! "file" with
                          | Some v => v
                          | None => JStr "unknown program"
                          end in
           let project := match info !! "project" with
                          | Some v => v
                          | None => JStr "unknown project"
                          end in
           ret ("Now using Ghidra instance on port " +:+ pretty port +:+
                " with " +:+ py_str program +:+ " in project " +:+ py_str project)
       end).

(** *** Sequences of calls *)

Inductive op :=
| OpRegister (port : Z) (url : option string)
| OpDiscover (port_range : list Z) (host : option string)
| OpRefresh
| OpBootstrap
| OpList
| OpDiscoverTool (host : option string)
| OpUnregister (port : Z)
| OpUse (port : Z)
| OpResolve (port : option Z)
| OpGetUrl (port : Z)
| OpSetCurrent (port : Z).

(** The state a call leaves behind, however it ends. *)
Definition run_op (o : op) (st : bridge) : bridge :=
  match o with
  | OpRegister port url => snd (register_instance port url st)
  | OpDiscover port_range host => snd (_discover_instances port_range host st)
  | OpRefresh => snd (periodic_discovery_cycle st)
  | OpBootstrap => snd (bootstrap_instances st)
  | OpList => snd (instances_list st)
  | OpDiscoverTool host => snd (instances_discover host st)
  | OpUnregister port => snd (instances_unregister port st)
  | OpUse port => snd (instances_use port st)
  | OpResolve port => snd (get_instance_port port st)
  | OpGetUrl port => snd (get_instance_url port st)
  | OpSetCurrent port => snd (set_current_port port st)
  end.

Definition run_ops (ops : list op) (st : bridge) : bridge :=
  fold_left (fun st o => run_op o st) ops st.
End Registry.

(** ** Auxiliary definitions of the properties *)

(** The URL [register_instance] validates. *)
Definition handshake_url (host : string) (port : Z) (url : option string) : string :=
  match url with
  | Some u => u
  | None => instance_url host port
  end.

(** The record after the best-effort [/program] request, issued as
    request number [n]. *)
Definition enriched (with_links : bool) (net : nat -> string -> http_result)
    (n : nat) (u : string) (info0 : gmap string json) : gmap string json :=
  match net n (u +:+ "/program") with
  | HResp true body => parse_program with_links info0 body
  | _ => info0
  end.

(** Whether the handshake body carries a result object:
    [response.json()] succeeded, ["result" in version_data] holds and
    [version_data["result"]] is a dict. *)
Definition has_result_object (body : option json) : bool :=
  match body with
  | None => false
  | Some version_data =>
      match py_contains "result" version_data with
      | inr true =>
          match py_getitem "result" version_data with
          | inr (JObj _) => true
          | _ => false
          end
      | _ => false
      end
  end.

(** Whether the [/program] request left the record without program
    fields for lack of a usable answer: the request raised, the status
    was not a success, or the body was not JSON or had no result object. *)
Definition program_malformed (info_response : http_result) : bool :=
  match info_response with
  | HErr _ => true
  | HResp false _ => true
  | HResp true body => negb (has_result_object body)
  end.

(** [port or current_instance_port] *)
Definition resolved_port (port : option Z) (st : bridge) : Z :=
  match port with
  | Some p => if p =? 0 then current_instance_port st else p
  | None => current_instance_port st
  end.

(** The [ValueError] of [get_instance_port]. *)
Definition no_active_instance (port : Z) : exn :=
  ValueError ("No active Ghidra instance on port " +:+ pretty port).

(** A relation between the state before and after a computation,
    whatever its outcome. *)
Definition stable (R : bridge -> bridge -> Prop) {A} (m : M A) : Prop :=
  forall st, R st (snd (m st)).

(** A relation on the state that only looks at the store. *)
Definition on_store (Rs : list (Z * gmap string json) -> list (Z * gmap string json) -> Prop)
    (st st' : bridge) : Prop :=
  Rs (active_instances st) (active_instances st').

(** The records the registry builds: the record of a handshake that
    passed, and what [/program] answers make of such a record. *)
Inductive valid_record (py_repr : json -> string) : gmap string json -> Prop :=
| valid_handshake url body info :
    parse_plugin_version py_repr {["url" := JStr url]} body = inr info ->
    valid_record py_repr info
| valid_program b info body :
    valid_record py_repr info ->
    valid_record py_repr (parse_program b info body).

(** A well-formed store: a dict (no key twice) of such records. *)
Definition wf_store (py_repr : json -> string) (d : list (Z * gmap string json)) : Prop :=
  NoDup d.*1 /\ Forall (fun kr => valid_record py_repr kr.2) d.

(** Every record of [d] is still in [d'], unchanged. *)
Definition keeps_records (d d' : list (Z * gmap string json)) : Prop :=
  forall k r, dict_get k d = Some r -> dict_get k d' = Some r.

(** Every key of [d] is still in [d'] with the same url. *)
Definition keeps_urls (d d' : list (Z * gmap string json)) : Prop :=
  forall k r, dict_get k d = Some r ->
    exists r', dict_get k d' = Some r' /\ r' !! "url" = r !! "url".

(** Well-formedness of the store is kept. *)
Definition keeps_wf (py_repr : json -> string)
    (d d' : list (Z * gmap string json)) : Prop :=
  wf_store py_repr d -> wf_store py_repr d'.

(** A liveness probe that sends its port to [ports_to_remove]: the
    request raised or the status was not a success. *)
Definition probe_fails (response : http_result) : bool :=
  match response with
  | HResp true _ => false
  | _ => true
  end.

(** The backend at [u] fails every liveness probe from request number
    [since] on. *)
Definition backend_down (net : nat -> string -> http_result) (since : nat)
    (u : string) : Prop :=
  forall n, (since <= n)%nat -> probe_fails (net n (u +:+ "/plugin-version")) = true.

(** The backend at [u] answers every liveness probe from request
    number [since] on. *)
Definition backend_up (net : nat -> string -> http_result) (since : nat)
    (u : string) : Prop :=
  forall n, (since <= n)%nat -> probe_fails (net n (u +:+ "/plugin-version")) = false.

(** Requests are only ever added to the count. *)
Definition clock_grows (st st' : bridge) : Prop :=
  (requests_made st <= requests_made st')%nat.

(** Every record under a key other than [port] is kept unchanged. *)
Definition keeps_others (port : Z) (d d' : list (Z * gmap string json)) : Prop :=
  forall k r, k <> port -> dict_get k d = Some r -> dict_get k d' = Some r.

(** No key is removed. *)
Definition keeps_keys (d d' : list (Z * gmap string json)) : Prop :=
  forall k, dict_mem k d = true -> dict_mem k d' = true.

(** The lock is left as it was found. *)
Definition same_lock (st st' : bridge) : Prop := lock_held st' = lock_held st.

(** ** The lock discipline of a trace *)

(** The state of a scan of the trace: whether the lock is held, and
    whether every request so far was issued with the lock free. *)
Definition lock_step (s : bool * bool) (e : event) : bool * bool :=
  match e with
  | EAcquire => (true, snd s)
  | ERelease => (false, snd s)
  | EHttp _ => (fst s, snd s && negb (fst s))
  end.

Definition scan_trace (evs : list event) : bool * bool :=
  fold_left lock_step evs (false, true).

(** No request of the trace was issued while the lock was held. *)
Definition http_outside_lock (evs : list event) : bool := snd (scan_trace evs).



(** ** Scenarios *)

(** A stand-in for [repr] on floats, lists and dicts; the scenarios
    below never format such a value. *)
Definition example_repr (v : json) : string := "<repr>".

(** The body of a [/plugin-version] answer. *)
Definition handshake_body (api_version : json) : json :=
  JObj [("success", JBool true);
        ("result", JObj [("plugin_version", JStr "v2.1.0");
                         ("api_version", api_version)])].

(** The body of a [/program] answer. *)
Definition program_body : json :=
  JObj [("success", JBool true);
        ("result", JObj [("programId", JStr "demo:/bin/ls");
                         ("name", JStr "ls");
                         ("languageId", JStr "x86:LE:64:default");
                         ("compilerSpecId", JStr "gcc");
                         ("image_base", JStr "00100000")])].

(** A network that answers the listed URLs and refuses every other
    connection. *)
Fixpoint serve (table : list (string * http_result)) (url : string) : http_result :=
  match table with
  | [] => HErr "Connection refused"
  | (u, r) :: table' => if String.eqb u url then r else serve table' url
  end.

(** A compatible plugin on a port of localhost. *)
Definition plugin_at (base : string) : list (string * http_result) :=
  [(base +:+ "/plugin-version", HResp true (Some (handshake_body (JInt 2010))));
   (base +:+ "/program", HResp true (Some program_body))].

(** A compatible plugin on port 8192. *)
Definition net_compatible (n : nat) (url : string) : http_result :=
  serve (plugin_at "http://localhost:8192") url.

(** Port 8192 answers 200 with a body that is not JSON. *)
Definition net_not_json (n : nat) (url : string) : http_result :=
  serve [("http://localhost:8192/plugin-version", HResp true None)] url.

(** Port 8192 answers with a result object that has no [api_version]. *)
Definition net_no_api_version (n : nat) (url : string) : http_result :=
  serve [("http://localhost:8192/plugin-version",
          HResp true (Some (JObj [("success", JBool true);
                                  ("result", JObj [("plugin_version", JStr "v2.1.0")])])))]
        url.

(** Port 8192 answers with a JSON body that has no result object. *)
Definition net_no_result (n : nat) (url : string) : http_result :=
  serve [("http://localhost:8192/plugin-version",
          HResp true (Some (JObj [("success", JBool true)])))] url.

(** Port 8192 reports API version 9999. *)
Definition net_old_plugin (n : nat) (url : string) : http_result :=
  serve [("http://localhost:8192/plugin-version",
          HResp true (Some (handshake_body (JInt 9999))))] url.

(** Compatible plugins behind two addresses. *)
Definition net_two_hosts (n : nat) (url : string) : http_result :=
  serve (plugin_at "http://localhost:8192" ++ plugin_at "http://10.0.0.5:8192") url.

(** A compatible plugin on port 8195 only. *)
Definition net_8195 (n : nat) (url : string) : http_result :=
  serve (plugin_at "http://localhost:8195") url.

(** Every connection is refused. *)
Definition net_nothing (n : nat) (url : string) : http_result :=
  HErr "Connection refused".

(** A plugin answers on port 0 of localhost. *)
Definition net_port_zero (n : nat) (url : string) : http_result :=
  serve (plugin_at "http://localhost:0") url.

(** Plugins on 8192 and 8193; from the fifth request on, 8193 refuses
    connections. *)
Definition net_8193_dies (n : nat) (url : string) : http_result :=
  if (n <? 4)%nat
  then serve (plugin_at "http://localhost:8192" ++ plugin_at "http://localhost:8193") url
  else serve (plugin_at "http://localhost:8192") url.


(** A compatible plugin on 8192 that is replaced, from the third
    request on, by one that reports API version 9999. *)
Definition net_downgraded (n : nat) (url : string) : http_result :=
  if (n <? 2)%nat
  then serve (plugin_at "http://localhost:8192") url
  else serve [("http://localhost:8192/plugin-version",
               HResp true (Some (handshake_body (JInt 9999))))] url.



(** ** Auxiliary definitions of the further properties *)


(** The trace grows by events whose requests all satisfy [U]. *)
Definition requests_within (U : string -> Prop) (st st' : bridge) : Prop :=
  exists evs, trace st' = trace st ++ evs /\ forall u, EHttp u ∈ evs -> U u.

(** The two URLs [register_instance] and the scanner request at [base]. *)
Definition instance_endpoint (base : string) (u : string) : Prop :=
  u = base +:+ "/plugin-version" \/ u = base +:+ "/program".

(** Every key of [d'] is a key of [d] or satisfies [S]. *)
Definition adds_only (S : Z -> Prop) (d d' : list (Z * gmap string json)) : Prop :=
  forall k, dict_mem k d' = true -> dict_mem k d = true \/ S k.

(** The current port is left as it was. *)
Definition same_current (st st' : bridge) : Prop :=
  current_instance_port st' = current_instance_port st.


(** The operations that assign [current_instance_port]. *)
Definition moves_current (o : op) : bool :=
  match o with
  | OpUse _ | OpSetCurrent _ => true
  | _ => false
  end.

(** The fields the [/program] answer assigns in a refresher cycle. *)
Definition program_fields : list string :=
  ["project"; "path"; "file"; "language_id"; "compiler_spec_id"; "image_base"].

(** Every record of [d] is still in [d'], with field [key] as it was. *)
Definition keeps_field (key : string) (d d' : list (Z * gmap string json)) : Prop :=
  forall k r, dict_get k d = Some r ->
    exists r', dict_get k d' = Some r' /\ r' !! key = r !! key.

(** Started with the lock free, the computation appends events none
    of whose requests was issued while the lock was held, and leaves
    the lock free. *)
Definition runs_outside_lock (st st' : bridge) : Prop :=
  lock_held st = false ->
  exists evs, trace st' = trace st ++ evs /\
              scan_trace evs = (false, true) /\
              lock_held st' = false.


(** ** Dictionary lemmas *)

Section DictFacts.
Context {V : Type}.
Implicit Types (d : list (Z * V)) (k : Z) (v : V).

Lemma dict_get_set_eq k v d : dict_get k (dict_set k v d) = Some v.
Proof.
  induction d as [|[k' v'] d IH]; simpl.
  - by rewrite Z.eqb_refl.
  - destruct (k' =? k) eqn:E; simpl; [by rewrite Z.eqb_refl | by rewrite E].
Qed.

Lemma dict_get_set_ne k k' v d :
  k ≠ k' → dict_get k' (dict_set k v d) = dict_get k' d.
Proof.
  intros Hne. induction d as [|[k0 v0] d IH]; simpl.
  - destruct (k =? k') eqn:E; [apply Z.eqb_eq in E; done | done].
  - destruct (k0 =? k) eqn:E; simpl.
    + apply Z.eqb_eq in E. subst k0.
      destruct (k =? k') eqn:E'; [apply Z.eqb_eq in E'; done | done].
    + by rewrite IH.
Qed.

Lemma dict_get_del_eq k d : dict_get k (dict_del k d) = None.
Proof.
  induction d as [|[k' v'] d IH]; simpl; [done|].
  destruct (k' =? k) eqn:E; simpl; [done | by rewrite E].
Qed.

Lemma dict_get_del_ne k k' d :
  k ≠ k' → dict_get k' (dict_del k d) = dict_get k' d.
Proof.
  intros Hne. induction d as [|[k0 v0] d IH]; simpl; [done|].
  destruct (k0 =? k) eqn:E; simpl.
  - apply Z.eqb_eq in E. subst k0.
    destruct (k =? k') eqn:E'; [apply Z.eqb_eq in E'; done | done].
  - by rewrite IH.
Qed.

Lemma dict_get_elem k v d : dict_get k d = Some v → (k, v) ∈ d.
Proof.
  induction d as [|[k' v'] d IH]; simpl; [done|].
  destruct (k' =? k) eqn:E.
  - apply Z.eqb_eq in E. intros [= ->]. subst. apply elem_of_cons. by left.
  - intros H. apply elem_of_cons. right. by apply IH.
Qed.

Lemma dict_get_None_keys k d : dict_get k d = None ↔ k ∉ d.*1.
Proof.
  induction d as [|[k' v'] d IH]; simpl.
  - split; [intros _; apply not_elem_of_nil | done].
  - rewrite not_elem_of_cons. destruct (k' =? k) eqn:E.
    + apply Z.eqb_eq in E. split; [done | intros [H _]; done].
    + apply Z.eqb_neq in E. rewrite IH. split; [by split | tauto].
Qed.

Lemma dict_mem_keys k d : dict_mem k d = true ↔ k ∈ d.*1.
Proof.
  unfold dict_mem. pose proof (dict_get_None_keys k d) as H.
  destruct (dict_get k d); split; try done.
  - intros _. destruct (decide (k ∈ d.*1)) as [|Hn]; [done|].
    apply H in Hn. done.
  - intros Hin. exfalso. by apply H.
Qed.

Lemma dict_get_NoDup k v d : NoDup d.*1 → (k, v) ∈ d → dict_get k d = Some v.
Proof.
  induction d as [|[k' v'] d IH]; simpl.
  - intros _ H. by apply elem_of_nil in H.
  - intros [Hnotin Hnd]%NoDup_cons [Heq | Hin]%elem_of_cons.
    + injection Heq as -> ->. by rewrite Z.eqb_refl.
    + destruct (k' =? k) eqn:E.
      * apply Z.eqb_eq in E. subst k'. exfalso. apply Hnotin.
        by apply (list_elem_of_fmap_2 fst) in Hin.
      * by apply IH.
Qed.

(** Assigning to a key that is present keeps the keys and their order. *)
Lemma dict_set_keys_mem k v d :
  dict_mem k d = true → (dict_set k v d).*1 = d.*1.
Proof.
  unfold dict_mem. induction d as [|[k' v'] d IH]; simpl; [done|].
  destruct (k' =? k) eqn:E; simpl.
  - apply Z.eqb_eq in E. by subst.
  - intros H. f_equal. by apply IH.
Qed.

(** Assigning to a new key appends it. *)
Lemma dict_set_keys_new k v d :
  dict_mem k d = false → (dict_set k v d).*1 = d.*1 ++ [k].
Proof.
  unfold dict_mem. induction d as [|[k' v'] d IH]; simpl; [done|].
  destruct (k' =? k) eqn:E; simpl; [done|].
  intros H. f_equal. by apply IH.
Qed.

Lemma dict_set_NoDup k v d : NoDup d.*1 → NoDup (dict_set k v d).*1.
Proof.
  intros Hnd. destruct (dict_mem k d) eqn:E.
  - by rewrite dict_set_keys_mem.
  - rewrite dict_set_keys_new by done.
    apply NoDup_app. split; [done|]. split; [|apply NoDup_singleton].
    intros x Hx Hx'. apply list_elem_of_singleton in Hx'. subst x.
    apply dict_mem_keys in Hx. congruence.
Qed.

Lemma dict_del_elem kv k d : kv ∈ dict_del k d → kv ∈ d.
Proof.
  induction d as [|[k' v'] d IH]; simpl; [done|].
  destruct (k' =? k); rewrite ?elem_of_cons; tauto.
Qed.

Lemma dict_del_NoDup k d : NoDup d.*1 → NoDup (dict_del k d).*1.
Proof.
  induction d as [|[k' v'] d IH]; simpl; [done|].
  intros [Hnotin Hnd]%NoDup_cons.
  destruct (k' =? k); simpl; [by apply IH|].
  apply NoDup_cons. split; [|by apply IH].
  intros Hin. apply Hnotin.
  apply list_elem_of_fmap_1 in Hin as [[k0 v0] [Hk Hin]].
  simpl in Hk. subst k0. apply dict_del_elem in Hin.
  by apply (list_elem_of_fmap_2 fst) in Hin.
Qed.

Lemma dict_set_elem kv k v d : kv ∈ dict_set k v d → kv = (k, v) ∨ kv ∈ d.
Proof.
  induction d as [|[k' v'] d IH]; simpl.
  - rewrite list_elem_of_singleton. tauto.
  - destruct (k' =? k); rewrite !elem_of_cons; tauto.
Qed.
End DictFacts.

(** ** Properties *)

Section Properties.
Variable GHIDRA_HOST : string.
Variable py_repr : json -> string.
Variable net : nat -> string -> http_result.

#[local] Abbreviation register_instance := (register_instance GHIDRA_HOST py_repr net).
#[local] Abbreviation http_get := (http_get net).

(** [register_instance] as one case analysis on the two responses. *)
Lemma register_instance_unfold port url st :
  register_instance port url st =
  let u := handshake_url GHIDRA_HOST port url in
  let st1 := snd (http_get (u +:+ "/plugin-version") st) in
  match net (requests_made st) (u +:+ "/plugin-version") with
  | HErr reason =>
      (Ret ("Error: Could not connect to instance at " +:+ u +:+ ": " +:+ reason), st1)
  | HResp false _ =>
      (Ret ("Error: Instance at " +:+ u +:+
            " is not responding properly to HATEOAS API"), st1)
  | HResp true body =>
      match parse_plugin_version py_repr {["url" := JStr u]} body with
      | inl error_msg => (Ret error_msg, st1)
      | inr info0 =>
          let st2 := snd (http_get (u +:+ "/program") st1) in
          let info := enriched true net (S (requests_made st)) u info0 in
          if lock_held st then (Hang, st2)
          else (Ret ("Registered instance on port " +:+ pretty port +:+ " at " +:+ u),
                snd (release
                       (set_store (dict_set port info (active_instances st))
                                  (snd (acquire st2)))))
      end
  end.
Proof.
  unfold register_instance, handshake_url, enriched, bind. simpl.
  destruct (net (requests_made st) _) as [|[] body]; try reflexivity.
  destruct (parse_plugin_version _ _ _) as [msg|info0]; try reflexivity.
  unfold fetch_program, bind, with_lock, acquire. simpl.
  destruct (net (S (requests_made st)) _) as [|[] body2]; simpl;
    destruct (lock_held st); reflexivity.
Qed.
(** The program fields never touch the identity and version keys. *)
Lemma set_program_fields_other b result info key :
  key ≠ "file" → key ≠ "language_id" → key ≠ "compiler_spec_id" →
  key ≠ "image_base" → key ≠ "_links" →
  set_program_fields b result info !! key = info !! key.
Proof.
  intros. unfold set_program_fields.
  destruct b; [destruct (obj_lookup "_links" result)|];
    by rewrite ?lookup_insert_ne.
Qed.

Lemma parse_program_other b info body key :
  key ≠ "project" → key ≠ "path" → key ≠ "file" → key ≠ "language_id" →
  key ≠ "compiler_spec_id" → key ≠ "image_base" → key ≠ "_links" →
  parse_program b info body !! key = info !! key.
Proof.
  intros. unfold parse_program.
  destruct body as [info_data|]; [|done].
  destruct (py_contains "result" info_data) as [|[]]; try done.
  destruct (py_getitem "result" info_data) as [|[]]; try done.
  destruct (py_contains ":" _) as [|[]]; try done.
  - destruct (obj_get "programId" _ _); try done.
    destruct (split_colon s) as [[project_name file_path]|]; [|done].
    rewrite set_program_fields_other by done.
    by rewrite !lookup_insert_ne.
  - by rewrite set_program_fields_other.
Qed.

Lemma enriched_other b n u info0 key :
  key ≠ "project" → key ≠ "path" → key ≠ "file" → key ≠ "language_id" →
  key ≠ "compiler_spec_id" → key ≠ "image_base" → key ≠ "_links" →
  enriched b net n u info0 !! key = info0 !! key.
Proof.
  intros. unfold enriched.
  destruct (net n _) as [|[] body]; try done.
  by apply parse_program_other.
Qed.

(** A handshake body with no result object sets no version field and
    triggers no check. *)
Lemma parse_plugin_version_no_result info body :
  has_result_object body = false →
  parse_plugin_version py_repr info body = inr info.
Proof.
  unfold has_result_object, parse_plugin_version.
  destruct body as [version_data|]; [|done].
  destruct (py_contains "result" version_data) as [|[]]; try done.
  destruct (py_getitem "result" version_data) as [|[]]; done.
Qed.

(** What a passed handshake leaves behind when the lock is free. *)
Lemma register_instance_pass port url st body info0 :
  let u := handshake_url GHIDRA_HOST port url in
  net (requests_made st) (u +:+ "/plugin-version") = HResp true body →
  parse_plugin_version py_repr {["url" := JStr u]} body = inr info0 →
  lock_held st = false →
  fst (register_instance port url st) =
    Ret ("Registered instance on port " +:+ pretty port +:+ " at " +:+ u) ∧
  active_instances (snd (register_instance port url st)) =
    dict_set port (enriched true net (S (requests_made st)) u info0) (active_instances st).
Proof.
  intros u Hnet Hparse Hlock. rewrite register_instance_unfold. simpl.
  fold u. rewrite Hnet, Hparse, Hlock. done.
Qed.

(** What a rejected handshake leaves behind. *)
Lemma register_instance_reject port url st body msg :
  let u := handshake_url GHIDRA_HOST port url in
  net (requests_made st) (u +:+ "/plugin-version") = HResp true body →
  parse_plugin_version py_repr {["url" := JStr u]} body = inl msg →
  register_instance port url st =
    (Ret msg, snd (http_get (u +:+ "/plugin-version") st)).
Proof.
  intros u Hnet Hparse. rewrite register_instance_unfold. simpl.
  fold u. rewrite Hnet, Hparse. done.
Qed.

Lemma parse_plugin_version_result info kvs result :
  obj_lookup "result" kvs = Some (JObj result) →
  parse_plugin_version py_repr info (Some (JObj kvs)) =
    let api_version := obj_get "api_version" (JInt 0) result in
    if py_ne_int api_version REQUIRED_API_VERSION
    then inl (mismatch_message py_repr api_version)
    else inr (<["api_version" := api_version]>
                (<["plugin_version" := obj_get "plugin_version" (JStr "") result]> info)).
Proof. intros H. unfold parse_plugin_version. simpl. by rewrite H. Qed.

Lemma parse_program_no_result b info body :
  has_result_object body = false → parse_program b info body = info.
Proof.
  unfold has_result_object, parse_program.
  destruct body as [info_data|]; [|done].
  destruct (py_contains "result" info_data) as [|[]]; try done.
  destruct (py_getitem "result" info_data) as [|[]]; done.
Qed.

Lemma enriched_malformed b n u info0 :
  program_malformed (net n (u +:+ "/program")) = true →
  enriched b net n u info0 = info0.
Proof.
  unfold program_malformed, enriched.
  destruct (net n _) as [|[] body]; try done.
  intros H. apply parse_program_no_result. by destruct (has_result_object body).
Qed.

(** A result object without [api_version] is checked as version 0. *)
Lemma register_instance_default_version port url st kvs result :
  net (requests_made st) (handshake_url GHIDRA_HOST port url +:+ "/plugin-version")
    = HResp true (Some (JObj kvs)) →
  obj_lookup "result" kvs = Some (JObj result) →
  obj_lookup "api_version" result = None →
  fst (register_instance port url st) =
    Ret "API version mismatch: Plugin reports version 0, but bridge requires version 2010" ∧
  active_instances (snd (register_instance port url st)) = active_instances st.
Proof.
  intros Hnet Hres Hapi.
  rewrite (register_instance_reject port url st _
             (mismatch_message py_repr (JInt 0)) Hnet).
  - done.
  - rewrite (parse_plugin_version_result _ _ _ Hres).
    unfold obj_get. rewrite Hapi. done.
Qed.

(** A handshake body without a result object registers the port. *)
Lemma register_instance_no_result port url st body :
  let u := handshake_url GHIDRA_HOST port url in
  net (requests_made st) (u +:+ "/plugin-version") = HResp true body →
  has_result_object body = false →
  lock_held st = false →
  fst (register_instance port url st) =
    Ret ("Registered instance on port " +:+ pretty port +:+ " at " +:+ u) ∧
  ∃ info, dict_get port (active_instances (snd (register_instance port url st))) = Some info ∧
          info !! "url" = Some (JStr u) ∧
          info !! "api_version" = None ∧
          info !! "plugin_version" = None.
Proof.
  intros u Hnet Hres Hlock.
  destruct (register_instance_pass port url st body {["url" := JStr u]} Hnet)
    as [Hret Hstore]; [by apply parse_plugin_version_no_result | done |].
  split; [done|]. rewrite Hstore. eexists. split; [apply dict_get_set_eq|].
  rewrite !enriched_other by done. done.
Qed.


(** C4 (amended). A handshake body that parses as JSON but carries no
    result object triggers no version check: the port is registered and
    its record has a url and no version field. A result object that
    lacks [api_version] is checked with the default 0: the call returns
    the mismatch message for version 0 and stores nothing. *)
Theorem register_instance_absent_api_version port url st body :
  net (requests_made st) (handshake_url GHIDRA_HOST port url +:+ "/plugin-version")
    = HResp true (Some body) →
  (has_result_object (Some body) = false → lock_held st = false →
   fst (register_instance port url st) =
     Ret ("Registered instance on port " +:+ pretty port +:+ " at " +:+
          handshake_url GHIDRA_HOST port url) ∧
   ∃ info, dict_get port (active_instances (snd (register_instance port url st))) = Some info ∧
           info !! "url" = Some (JStr (handshake_url GHIDRA_HOST port url)) ∧
           info !! "api_version" = None) ∧
  (∀ kvs result,
     body = JObj kvs →
     obj_lookup "result" kvs = Some (JObj result) →
     obj_lookup "api_version" result = None →
     fst (register_instance port url st) =
       Ret "API version mismatch: Plugin reports version 0, but bridge requires version 2010" ∧
     active_instances (snd (register_instance port url st)) = active_instances st).
Proof.
  intros Hnet. split.
  - intros Hres Hlock.
    destruct (register_instance_no_result port url st _ Hnet Hres Hlock)
      as [Hret (info & Hget & Hurl & Hapi & _)].
    split; [done|]. by exists info.
  - intros kvs result -> Hres Hapi.
    by apply (register_instance_default_version port url st kvs result).
Qed.

(** C2 (amended). When [/plugin-version] answers with a success status:
    a body that is not JSON or has no result object does not fail the
    validation, the port is registered; a result object without
    [api_version] is rejected as a mismatch with version 0 and nothing
    is stored; and whenever the handshake passes, the port is registered
    whatever the [/program] request does, a malformed answer there
    leaving the record as the handshake built it. *)
Theorem register_instance_malformed_bodies port url st body :
  net (requests_made st) (handshake_url GHIDRA_HOST port url +:+ "/plugin-version")
    = HResp true body →
  lock_held st = false →
  (has_result_object body = false →
   fst (register_instance port url st) =
     Ret ("Registered instance on port " +:+ pretty port +:+ " at " +:+
          handshake_url GHIDRA_HOST port url) ∧
   dict_mem port (active_instances (snd (register_instance port url st))) = true) ∧
  (∀ kvs result,
     body = Some (JObj kvs) →
     obj_lookup "result" kvs = Some (JObj result) →
     obj_lookup "api_version" result = None →
     fst (register_instance port url st) =
       Ret "API version mismatch: Plugin reports version 0, but bridge requires version 2010" ∧
     active_instances (snd (register_instance port url st)) = active_instances st) ∧
  (∀ info0,
     parse_plugin_version py_repr
       {["url" := JStr (handshake_url GHIDRA_HOST port url)]} body = inr info0 →
     fst (register_instance port url st) =
       Ret ("Registered instance on port " +:+ pretty port +:+ " at " +:+
            handshake_url GHIDRA_HOST port url) ∧
     dict_get port (active_instances (snd (register_instance port url st))) =
       Some (enriched true net (S (requests_made st)) (handshake_url GHIDRA_HOST port url) info0) ∧
     (program_malformed
        (net (S (requests_made st)) (handshake_url GHIDRA_HOST port url +:+ "/program")) = true →
      dict_get port (active_instances (snd (register_instance port url st))) = Some info0)).
Proof.
  intros Hnet Hlock. split; [|split].
  - intros Hres.
    destruct (register_instance_no_result port url st _ Hnet Hres Hlock)
      as [Hret (info & Hget & _)].
    split; [done|]. unfold dict_mem. by rewrite Hget.
  - intros kvs result -> Hres Hapi.
    by apply (register_instance_default_version port url st kvs result).
  - intros info0 Hparse.
    destruct (register_instance_pass port url st body info0 Hnet Hparse Hlock)
      as [Hret Hstore].
    split; [done|]. rewrite Hstore, dict_get_set_eq. split; [done|].
    intros Hmal. by rewrite enriched_malformed.
Qed.

#[local] Abbreviation get_instance_port := (get_instance_port GHIDRA_HOST py_repr net).

Lemma instance_url_inj host p q : instance_url host p = instance_url host q → p = q.
Proof.
  unfold instance_url. intros H.
  do 3 apply String.app_inj in H. by apply pretty_Z_inj in H.
Qed.

(** With the lock free, [register_instance] returns. *)
Lemma register_instance_returns port url st :
  lock_held st = false → ∃ msg, fst (register_instance port url st) = Ret msg.
Proof.
  intros Hlock. rewrite register_instance_unfold. simpl.
  destruct (net (requests_made st) _) as [|[] body]; [by eexists| |by eexists].
  destruct (parse_plugin_version _ _ _); [by eexists|].
  rewrite Hlock. by eexists.
Qed.

(** The store after [register_instance]: as before, or with the port set. *)
Lemma register_instance_store port url st :
  active_instances (snd (register_instance port url st)) = active_instances st ∨
  ∃ info, active_instances (snd (register_instance port url st)) =
            dict_set port info (active_instances st).
Proof.
  rewrite register_instance_unfold. simpl.
  destruct (net (requests_made st) _) as [|[] body]; [by left| |by left].
  destruct (parse_plugin_version _ _ _); [by left|].
  destruct (lock_held st); [by left|]. right. by eexists.
Qed.

(** The requests of [register_instance] go to the validated URL. *)
Lemma register_instance_trace port url st :
  ∃ evs, trace (snd (register_instance port url st)) = trace st ++ evs ∧
         ∀ u, EHttp u ∈ evs →
              u = handshake_url GHIDRA_HOST port url +:+ "/plugin-version" ∨
              u = handshake_url GHIDRA_HOST port url +:+ "/program".
Proof.
  rewrite register_instance_unfold. simpl.
  set (u1 := _ +:+ "/plugin-version"). set (u2 := _ +:+ "/program").
  assert (∀ evs, evs ⊆ [EHttp u1; EHttp u2; EAcquire; ERelease] →
          ∀ u, EHttp u ∈ evs → u = u1 ∨ u = u2) as Hsub.
  { intros evs Hevs u Hin%Hevs.
    repeat (apply elem_of_cons in Hin as [Heq|Hin];
            [try discriminate; injection Heq as ->; auto|]).
    by apply elem_of_nil in Hin. }
  assert (∀ u, EHttp u ∈ [EHttp u1] → u = u1 ∨ u = u2) as H1.
  { apply Hsub. intros x. rewrite !elem_of_cons. tauto. }
  assert (∀ u, EHttp u ∈ [EHttp u1; EHttp u2] → u = u1 ∨ u = u2) as H2.
  { apply Hsub. intros x. rewrite !elem_of_cons. tauto. }
  assert (∀ u, EHttp u ∈ [EHttp u1; EHttp u2; EAcquire; ERelease] → u = u1 ∨ u = u2) as H3.
  { by apply Hsub. }
  destruct (net (requests_made st) _) as [|[] body]; [by eexists| |by eexists].
  destruct (parse_plugin_version _ _ _); [by eexists|].
  destruct (lock_held st); simpl.
  - exists [EHttp u1; EHttp u2]. split; [by rewrite <- !app_assoc | done].
  - exists [EHttp u1; EHttp u2; EAcquire; ERelease].
    split; [by rewrite <- !app_assoc | done].
Qed.

Lemma get_instance_port_registered port st :
  dict_mem (resolved_port port st) (active_instances st) = true →
  get_instance_port port st = (Ret (resolved_port port st), st).
Proof.
  intros H. unfold get_instance_port. fold (resolved_port port st). by rewrite H.
Qed.

Lemma get_instance_port_lazy port st :
  dict_mem (resolved_port port st) (active_instances st) = false →
  get_instance_port port st =
    match fst (register_instance (resolved_port port st) None st) with
    | Ret _ =>
        (if dict_mem (resolved_port port st)
              (active_instances (snd (register_instance (resolved_port port st) None st)))
         then Ret (resolved_port port st)
         else Raise (no_active_instance (resolved_port port st)),
         snd (register_instance (resolved_port port st) None st))
    | Raise e => (Raise e, snd (register_instance (resolved_port port st) None st))
    | Hang => (Hang, snd (register_instance (resolved_port port st) None st))
    end.
Proof.
  intros H. unfold get_instance_port. fold (resolved_port port st). rewrite H.
  unfold bind, get_store, no_active_instance.
  destruct (register_instance _ None st) as [[msg|e|] st']; simpl; try done.
  by destruct (dict_mem (resolved_port port st) (active_instances st')).
Qed.

Lemma resolved_port_default port st :
  port ≠ Some 0 →
  resolved_port port st = default (current_instance_port st) port.
Proof.
  intros Hport. destruct port as [q|]; [|done]. simpl.
  destruct (q =? 0) eqn:E; [|done]. apply Z.eqb_eq in E. by subst q.
Qed.

(** C5. The resolver, called by a thread that does not hold the lock
    with a port argument that is omitted or not 0. The resolved port
    is the argument, or the process-wide current port when the
    argument is omitted; the current port is 8192 when the module is
    loaded and [P] after [set_current_port P]. If the resolved port
    has a record, it is returned and nothing else happens. Otherwise
    exactly one [register_instance] call for that port is made; if the
    port has a record afterwards it is returned, and if not the call
    raises the error that names the port. Hence after
    [set_current_port P] the call with the port omitted returns [P]
    when [P] is stored or gets stored by that one registration, and
    raises the error that names [P] otherwise. *)
Theorem resolver_contract port P st :
  lock_held st = false →
  port ≠ Some 0 →
  current_instance_port initial_bridge = 8192 ∧
  (dict_mem (default (current_instance_port st) port) (active_instances st) = true →
   get_instance_port port st = (Ret (default (current_instance_port st) port), st)) ∧
  (dict_mem (default (current_instance_port st) port) (active_instances st) = false →
   get_instance_port port st =
     (if dict_mem (default (current_instance_port st) port)
           (active_instances
              (snd (register_instance (default (current_instance_port st) port) None st)))
      then Ret (default (current_instance_port st) port)
      else Raise (ValueError ("No active Ghidra instance on port " +:+
                              pretty (default (current_instance_port st) port))),
      snd (register_instance (default (current_instance_port st) port) None st))) ∧
  (dict_mem P (active_instances st) = true →
   get_instance_port None (snd (set_current_port P st)) =
     (Ret P, snd (set_current_port P st))) ∧
  (dict_mem P (active_instances st) = false →
   get_instance_port None (snd (set_current_port P st)) =
     (if dict_mem P (active_instances
                       (snd (register_instance P None (snd (set_current_port P st)))))
      then Ret P
      else Raise (ValueError ("No active Ghidra instance on port " +:+ pretty P)),
      snd (register_instance P None (snd (set_current_port P st))))).
Proof.
  intros Hlock Hport. split; [done|].
  pose proof (resolved_port_default port st Hport) as Hres.
  split; [|split; [|split]].
  - intros Hmem. rewrite <- Hres in *. by apply get_instance_port_registered.
  - intros Hmem. rewrite <- Hres in *. rewrite get_instance_port_lazy by done.
    destruct (register_instance_returns (resolved_port port st) None st Hlock)
      as [msg Hmsg].
    by rewrite Hmsg.
  - intros Hmem. by rewrite get_instance_port_registered.
  - intros Hmem. rewrite get_instance_port_lazy by done. simpl.
    destruct (register_instance_returns P None (snd (set_current_port P st)) Hlock)
      as [msg Hmsg].
    simpl in Hmsg. by rewrite Hmsg.
Qed.

(** C9 (amended). A requested port 0 is falsy: the call is the call
    with the port omitted. Whenever the current port is not itself 0,
    the call leaves port 0 as it was in the store, any error it raises
    names the current port, and its requests go to the URL of the
    current port. *)
Theorem get_instance_port_zero st :
  get_instance_port (Some 0) st = get_instance_port None st ∧
  (current_instance_port st ≠ 0 →
   dict_get 0 (active_instances (snd (get_instance_port (Some 0) st))) =
     dict_get 0 (active_instances st) ∧
   (∀ e, fst (get_instance_port (Some 0) st) = Raise e →
         e = ValueError ("No active Ghidra instance on port " +:+
                         pretty (current_instance_port st))) ∧
   (∃ evs, trace (snd (get_instance_port (Some 0) st)) = trace st ++ evs ∧
           ∀ u, EHttp u ∈ evs →
                u = instance_url GHIDRA_HOST (current_instance_port st) +:+ "/plugin-version" ∨
                u = instance_url GHIDRA_HOST (current_instance_port st) +:+ "/program") ∧
   instance_url GHIDRA_HOST (current_instance_port st) ≠ instance_url GHIDRA_HOST 0).
Proof.
  split; [done|]. intros Hcur.
  assert (resolved_port (Some 0) st = current_instance_port st) as Hres by done.
  destruct (dict_mem (current_instance_port st) (active_instances st)) eqn:Hmem.
  - rewrite get_instance_port_registered by (by rewrite Hres). simpl.
    split; [done|]. split; [done|]. split.
    + exists []. split; [by rewrite app_nil_r|]. intros u Hu. by apply elem_of_nil in Hu.
    + intros Heq. by apply instance_url_inj in Heq.
  - rewrite get_instance_port_lazy by (by rewrite Hres). rewrite Hres.
    set (r := register_instance (current_instance_port st) None st).
    assert (dict_get 0 (active_instances (snd r)) = dict_get 0 (active_instances st)) as Hstore.
    { destruct (register_instance_store (current_instance_port st) None st)
        as [Hs|[info Hs]]; fold r in Hs; rewrite Hs; [done|].
      by apply dict_get_set_ne. }
    pose proof (register_instance_trace (current_instance_port st) None st) as Htr.
    fold r in Htr. simpl in Htr.
    assert (instance_url GHIDRA_HOST (current_instance_port st) ≠ instance_url GHIDRA_HOST 0)
      as Hurl by (intros Heq; by apply instance_url_inj in Heq).
    destruct (fst r) as [msg|e|] eqn:Hr; simpl; (split; [done|]); (split; [|done]).
    + destruct (dict_mem _ (active_instances (snd r))); [done|].
      intros e [= <-]. done.
    + exfalso. unfold r in Hr. rewrite register_instance_unfold in Hr. simpl in Hr.
      destruct (net (requests_made st) _) as [|[] body]; try done.
      destruct (parse_plugin_version _ _ _); try done.
      by destruct (lock_held st).
    + done.
Qed.

(** *** Relations kept by the monad's operations *)

Section Stable.
Context (R : bridge → bridge → Prop) `{!Reflexive R, !Transitive R}.

Lemma stable_ret {A} (a : A) : stable R (ret a).
Proof. intros st. simpl. reflexivity. Qed.

Lemma stable_raise {A} e : stable R (@raise A e).
Proof. intros st. simpl. reflexivity. Qed.

Lemma stable_bind {A B} (m : M A) (k : A → M B) :
  stable R m → (∀ a, stable R (k a)) → stable R (bind m k).
Proof.
  intros Hm Hk st. unfold bind. specialize (Hm st).
  destruct (m st) as [[a|e|] st']; simpl in *; [|done|done].
  etransitivity; [exact Hm | apply Hk].
Qed.

Lemma stable_lift_exn {A} (r : exn + A) : stable R (lift_exn r).
Proof. destruct r; [apply stable_raise | apply stable_ret]. Qed.

Lemma stable_get_store : stable R get_store.
Proof. intros st. simpl. reflexivity. Qed.

Lemma stable_try_pass body : stable R body → stable R (try_pass body).
Proof.
  intros Hb st. unfold try_pass. specialize (Hb st).
  by destruct (body st) as [[a|e|] st'].
Qed.

Lemma stable_catch_value_key {A} (body handler : M A) :
  stable R body → stable R handler → stable R (catch_value_key body handler).
Proof.
  intros Hb Hh st. unfold catch_value_key. specialize (Hb st).
  destruct (body st) as [[a|[]|] st']; simpl in *; try done;
    (etransitivity; [exact Hb | apply Hh]).
Qed.

Lemma stable_with_lock {A} (body : M A) :
  stable R acquire → stable R release → stable R body → stable R (with_lock body).
Proof.
  intros Ha Hr Hb st. unfold with_lock. specialize (Ha st).
  destruct (acquire st) as [[[]|e|] st1]; simpl in *; [|done|done].
  specialize (Hb st1). specialize (Hr (snd (body st1))).
  destruct (body st1) as [[a|e|] st2]; simpl in *.
  - etransitivity; [exact Ha|]. etransitivity; [exact Hb | exact Hr].
  - etransitivity; [exact Ha|]. etransitivity; [exact Hb | exact Hr].
  - etransitivity; [exact Ha | exact Hb].
Qed.

Lemma stable_record_url info : stable R (record_url info).
Proof.
  unfold record_url. destruct (info !! "url"); [apply stable_ret | apply stable_raise].
Qed.

Lemma stable_list_entries items : stable R (list_entries items).
Proof.
  induction items as [|[port info] items IH]; simpl; [by apply stable_ret|].
  apply stable_bind.
  - unfold list_entry. apply stable_bind; [apply stable_record_url|].
    intros u. apply stable_ret.
  - intros e. apply stable_bind; [done|]. intros es. apply stable_ret.
Qed.
End Stable.

(** *** Relations on the store *)

Section OnStore.
Context (Rs : list (Z * gmap string json) → list (Z * gmap string json) → Prop)
        `{!Reflexive Rs, !Transitive Rs}.

#[local] Instance on_store_refl : Reflexive (on_store Rs).
Proof. intros st. unfold on_store. reflexivity. Qed.

#[local] Instance on_store_trans : Transitive (on_store Rs).
Proof. intros a b c. unfold on_store. apply transitivity. Qed.

Lemma stable_http_get url : stable (on_store Rs) (http_get url).
Proof. intros st. unfold on_store. simpl. reflexivity. Qed.

Lemma stable_acquire : stable (on_store Rs) acquire.
Proof. intros st. unfold on_store, acquire. destruct (lock_held st); simpl; reflexivity. Qed.

Lemma stable_release : stable (on_store Rs) release.
Proof. intros st. unfold on_store. simpl. reflexivity. Qed.

Lemma stable_set_current_port port : stable (on_store Rs) (set_current_port port).
Proof. intros st. unfold on_store. simpl. reflexivity. Qed.

Lemma stable_store_with_lock {A} (body : M A) :
  stable (on_store Rs) body → stable (on_store Rs) (with_lock body).
Proof.
  apply stable_with_lock; [apply _ .. | apply stable_acquire | apply stable_release].
Qed.
End OnStore.

Create HintDb stable discriminated.

Ltac stable_step :=
  first
    [ match goal with
      | |- Reflexive _ => apply _
      | |- Transitive _ => apply _
      end
    | progress intros
    | solve [eauto 3 with stable nocore]
    | apply stable_ret
    | apply stable_raise
    | apply stable_lift_exn
    | apply stable_get_store
    | apply stable_record_url
    | apply stable_list_entries
    | apply stable_http_get
    | apply stable_set_current_port
    | apply stable_store_with_lock
    | apply stable_try_pass
    | apply stable_catch_value_key
    | apply stable_bind
    | match goal with
      | |- stable _ (match ?x with _ => _ end) => destruct x
      end ].

Ltac stable_auto := repeat stable_step.

(** *** The store stays well-formed *)

#[global] Instance keeps_wf_refl : Reflexive (keeps_wf py_repr).
Proof. intros d H. exact H. Qed.

#[global] Instance keeps_wf_trans : Transitive (keeps_wf py_repr).
Proof. intros a b c H1 H2 H. by apply H2, H1. Qed.

#[global] Instance on_store_reflexive Rs `{!Reflexive Rs} : Reflexive (on_store Rs).
Proof. by apply on_store_refl. Qed.

#[global] Instance on_store_transitive Rs `{!Transitive Rs} : Transitive (on_store Rs).
Proof. by apply on_store_trans. Qed.

Lemma wf_store_nil : wf_store py_repr [].
Proof. split; [apply NoDup_nil_2 | apply Forall_nil_2]. Qed.

Lemma wf_store_set port info d :
  valid_record py_repr info → wf_store py_repr d → wf_store py_repr (dict_set port info d).
Proof.
  intros Hv [Hnd Hall]. split; [by apply dict_set_NoDup|].
  apply Forall_forall. intros kv [->|Hin]%dict_set_elem; [done|].
  by apply (proj1 (Forall_forall _ _) Hall).
Qed.

Lemma wf_store_del port d : wf_store py_repr d → wf_store py_repr (dict_del port d).
Proof.
  intros [Hnd Hall]. split; [by apply dict_del_NoDup|].
  apply Forall_forall. intros kv Hin%dict_del_elem.
  by apply (proj1 (Forall_forall _ _) Hall).
Qed.

Lemma wf_store_get port info d :
  wf_store py_repr d → dict_get port d = Some info → valid_record py_repr info.
Proof.
  intros [_ Hall] Hget%dict_get_elem.
  by apply (proj1 (Forall_forall _ _) Hall (port, info)).
Qed.

Lemma valid_enriched b n u info0 :
  valid_record py_repr info0 → valid_record py_repr (enriched b net n u info0).
Proof.
  intros Hv. unfold enriched. destruct (net n _) as [|[] body]; try done.
  by apply valid_program.
Qed.

(** The store after [register_instance]: as before, or with the port
    set to a record the handshake admitted. *)
Lemma register_instance_store_valid port url st :
  active_instances (snd (register_instance port url st)) = active_instances st ∨
  ∃ info, valid_record py_repr info ∧
          info !! "url" = Some (JStr (handshake_url GHIDRA_HOST port url)) ∧
          active_instances (snd (register_instance port url st)) =
            dict_set port info (active_instances st).
Proof.
  rewrite register_instance_unfold. simpl.
  destruct (net (requests_made st) _) as [|[] body]; [by left| |by left].
  destruct (parse_plugin_version _ _ _) as [|info0] eqn:Hparse; [by left|].
  destruct (lock_held st); [by left|]. right. eexists. split; [|split; [|done]].
  - apply valid_enriched. by eapply valid_handshake.
  - rewrite enriched_other by done.
    unfold parse_plugin_version in Hparse.
    destruct body as [version_data|]; [|injection Hparse as <-; apply lookup_insert_eq].
    destruct (py_contains "result" version_data) as [|[]];
      try (injection Hparse as <-; apply lookup_insert_eq).
    destruct (py_getitem "result" version_data) as [|[]];
      try (injection Hparse as <-; apply lookup_insert_eq).
    destruct (py_ne_int _ _); [done|]. injection Hparse as <-.
    rewrite !lookup_insert_ne by done. apply lookup_insert_eq.
Qed.

Lemma register_instance_wf port url :
  stable (on_store (keeps_wf py_repr)) (register_instance port url).
Proof.
  intros st Hwf.
  destruct (register_instance_store_valid port url st) as [->|(info & Hv & _ & ->)];
    [done | by apply wf_store_set].
Qed.
Hint Resolve register_instance_wf : stable.

Lemma del_instance_wf port :
  stable (on_store (keeps_wf py_repr)) (del_instance port).
Proof.
  intros st Hwf. unfold del_instance, bind, get_store.
  destruct (dict_mem port (active_instances st)); simpl; [by apply wf_store_del | done].
Qed.
Hint Resolve del_instance_wf : stable.

Lemma get_instance_port_wf port :
  stable (on_store (keeps_wf py_repr)) (get_instance_port port).
Proof.
  intros st. unfold get_instance_port.
  fold (resolved_port port st). set (p := resolved_port port st).
  destruct (dict_mem p (active_instances st)); [reflexivity|].
  match goal with |- on_store _ st (snd (?m st)) =>
    assert (stable (on_store (keeps_wf py_repr)) m) as Hs by stable_auto
  end.
  apply Hs.
Qed.
Hint Resolve get_instance_port_wf : stable.

#[local] Abbreviation get_instance_url := (get_instance_url GHIDRA_HOST py_repr net).
#[local] Abbreviation discover_body := (discover_body GHIDRA_HOST py_repr net).
#[local] Abbreviation discover_port := (discover_port GHIDRA_HOST py_repr net).
#[local] Abbreviation discover_loop := (discover_loop GHIDRA_HOST py_repr net).
#[local] Abbreviation _discover_instances := (_discover_instances GHIDRA_HOST py_repr net).
#[local] Abbreviation sweep_instance := (sweep_instance py_repr net).
#[local] Abbreviation sweep := (sweep py_repr net).
#[local] Abbreviation liveness_sweep := (liveness_sweep py_repr net).
#[local] Abbreviation periodic_discovery_cycle :=
  (periodic_discovery_cycle GHIDRA_HOST py_repr net).
#[local] Abbreviation bootstrap_instances := (bootstrap_instances GHIDRA_HOST py_repr net).
#[local] Abbreviation instances_discover := (instances_discover GHIDRA_HOST py_repr net).
#[local] Abbreviation instances_list := (instances_list GHIDRA_HOST py_repr net).
#[local] Abbreviation instances_use := (instances_use GHIDRA_HOST py_repr net).
#[local] Abbreviation run_op := (run_op GHIDRA_HOST py_repr net).
#[local] Abbreviation run_ops := (run_ops GHIDRA_HOST py_repr net).

(** The loop body of the sweep as one case analysis on its responses. *)
Lemma sweep_instance_unfold port info st :
  sweep_instance port info st =
  match info !! "url" with
  | None => (Raise KeyError, st)
  | Some u =>
      let url := py_str py_repr u in
      let st1 := snd (http_get (url +:+ "/plugin-version") st) in
      match net (requests_made st) (url +:+ "/plugin-version") with
      | HResp true _ =>
          (Ret false,
           set_store (dict_set port (enriched false net (S (requests_made st)) url info)
                               (active_instances st))
                     (snd (http_get (url +:+ "/program") st1)))
      | _ => (Ret true, st1)
      end
  end.
Proof.
  unfold sweep_instance, record_url, bind, enriched.
  destruct (info !! "url") as [u|]; [|done]. simpl.
  destruct (net (requests_made st) _) as [|[] body]; try reflexivity.
  unfold fetch_program, bind. simpl.
  destruct (net (S (requests_made st)) _) as [|[] body2]; reflexivity.
Qed.

Lemma sweep_instance_wf port info :
  valid_record py_repr info →
  stable (on_store (keeps_wf py_repr)) (sweep_instance port info).
Proof.
  intros Hv st Hwf. rewrite sweep_instance_unfold.
  destruct (info !! "url") as [u|]; [|done]. simpl.
  destruct (net (requests_made st) _) as [|[] body]; try done.
  simpl. apply wf_store_set; [by apply valid_enriched | done].
Qed.

Lemma sweep_wf items ports_to_remove :
  Forall (λ kr, valid_record py_repr kr.2) items →
  stable (on_store (keeps_wf py_repr)) (sweep items ports_to_remove).
Proof.
  revert ports_to_remove.
  induction items as [|[port info] items IH]; intros acc Hall; simpl.
  - apply stable_ret; apply _.
  - apply Forall_cons in Hall as [Hv Hall].
    apply stable_bind; [apply _ | by apply sweep_instance_wf |].
    intros dead. by apply IH.
Qed.

Lemma remove_ports_wf ports :
  stable (on_store (keeps_wf py_repr)) (remove_ports ports).
Proof. induction ports as [|port ports IH]; simpl; stable_auto. Qed.
Hint Resolve remove_ports_wf : stable.

Lemma liveness_sweep_wf : stable (on_store (keeps_wf py_repr)) liveness_sweep.
Proof.
  unfold liveness_sweep. apply stable_store_with_lock; [apply _ ..|].
  intros st Hwf. unfold bind at 1. simpl.
  assert (stable (on_store (keeps_wf py_repr))
            (ports_to_remove <- sweep (active_instances st) [] ;;
             remove_ports ports_to_remove)) as Hs.
  { apply stable_bind; [apply _ | apply sweep_wf, Hwf | stable_auto]. }
  by apply Hs.
Qed.
Hint Resolve liveness_sweep_wf : stable.

Lemma discover_loop_wf scan_host port_range found :
  stable (on_store (keeps_wf py_repr)) (discover_loop scan_host port_range found).
Proof.
  revert found. induction port_range as [|port rest IH]; intros found; simpl.
  - stable_auto.
  - apply stable_bind; [apply _ | | done].
    unfold discover_port, discover_body. stable_auto.
Qed.
Hint Resolve discover_loop_wf : stable.

Lemma _discover_instances_wf port_range host :
  stable (on_store (keeps_wf py_repr)) (_discover_instances port_range host).
Proof. unfold _discover_instances. stable_auto. Qed.
Hint Resolve _discover_instances_wf : stable.

(** Every operation keeps the store well-formed. *)
Lemma run_op_wf o st :
  wf_store py_repr (active_instances st) →
  wf_store py_repr (active_instances (run_op o st)).
Proof.
  intros Hwf.
  destruct o; unfold run_op;
    match goal with
    | |- wf_store _ (active_instances (snd (?m st))) =>
        assert (stable (on_store (keeps_wf py_repr)) m) as Hs; [|exact (Hs st Hwf)]
    end.
  - stable_auto.
  - stable_auto.
  - unfold periodic_discovery_cycle. stable_auto.
  - unfold bootstrap_instances. stable_auto.
  - unfold instances_list, instances_discover. stable_auto.
  - unfold instances_discover. stable_auto.
  - unfold instances_unregister. stable_auto.
  - unfold instances_use. stable_auto.
  - stable_auto.
  - unfold get_instance_url. stable_auto.
  - stable_auto.
Qed.

Lemma run_ops_wf ops st :
  wf_store py_repr (active_instances st) →
  wf_store py_repr (active_instances (run_ops ops st)).
Proof.
  revert st. induction ops as [|o ops IH]; intros st Hwf; simpl; [done|].
  apply IH. by apply run_op_wf.
Qed.

Lemma reachable_wf ops :
  wf_store py_repr (active_instances (run_ops ops initial_bridge)).
Proof. apply run_ops_wf, wf_store_nil. Qed.

(** *** What a stored record holds *)

Lemma parse_plugin_version_url url body info :
  parse_plugin_version py_repr {["url" := JStr url]} body = inr info →
  info !! "url" = Some (JStr url).
Proof.
  unfold parse_plugin_version. intros Hparse.
  destruct body as [version_data|]; [|injection Hparse as <-; apply lookup_insert_eq].
  destruct (py_contains "result" version_data) as [|[]];
    try (injection Hparse as <-; apply lookup_insert_eq).
  destruct (py_getitem "result" version_data) as [|[]];
    try (injection Hparse as <-; apply lookup_insert_eq).
  destruct (py_ne_int _ _); [done|]. injection Hparse as <-.
  rewrite !lookup_insert_ne by done. apply lookup_insert_eq.
Qed.

Lemma parse_plugin_version_api url body info v :
  parse_plugin_version py_repr {["url" := JStr url]} body = inr info →
  info !! "api_version" = Some v →
  py_eq_int v REQUIRED_API_VERSION = true.
Proof.
  unfold parse_plugin_version. intros Hparse.
  destruct body as [version_data|]; [|by injection Hparse as <-].
  destruct (py_contains "result" version_data) as [|[]];
    try by injection Hparse as <-.
  destruct (py_getitem "result" version_data) as [|[]];
    try by injection Hparse as <-.
  unfold py_ne_int in Hparse.
  destruct (py_eq_int _ _) eqn:Heq; [|done]. injection Hparse as <-.
  rewrite lookup_insert_eq. by intros [= <-].
Qed.

Lemma valid_record_url info :
  valid_record py_repr info → ∃ u, info !! "url" = Some (JStr u).
Proof.
  induction 1 as [url body info Hparse | b info body Hv [u IH]].
  - exists url. by eapply parse_plugin_version_url.
  - exists u. by rewrite parse_program_other.
Qed.

Lemma valid_record_version info v :
  valid_record py_repr info →
  info !! "api_version" = Some v →
  py_eq_int v REQUIRED_API_VERSION = true.
Proof.
  induction 1 as [url body info Hparse | b info body Hv IH].
  - by eapply parse_plugin_version_api.
  - by rewrite parse_program_other.
Qed.

(** C1 (amended). In every state reached from the initial one by
    register, discovery, refresher, unregister and resolver calls, a
    stored record that has an [api_version] field has one equal (as
    Python's [==]) to the required 2010. A handshake whose result
    object reports another version leaves the store as it was, in any
    state. And records without the field exist: a success response
    whose body is not JSON or carries no result object is stored, by a
    caller that does not hold the lock, with no [api_version] at all. *)
Theorem store_version_invariant ops :
  (∀ port info v,
     dict_get port (active_instances (run_ops ops initial_bridge)) = Some info →
     info !! "api_version" = Some v →
     py_eq_int v REQUIRED_API_VERSION = true) ∧
  (∀ st p url kvs result w,
     net (requests_made st) (handshake_url GHIDRA_HOST p url +:+ "/plugin-version")
       = HResp true (Some (JObj kvs)) →
     obj_lookup "result" kvs = Some (JObj result) →
     obj_lookup "api_version" result = Some w →
     py_ne_int w REQUIRED_API_VERSION = true →
     active_instances (snd (register_instance p url st)) = active_instances st) ∧
  (∀ st p url body,
     lock_held st = false →
     net (requests_made st) (handshake_url GHIDRA_HOST p url +:+ "/plugin-version")
       = HResp true body →
     has_result_object body = false →
     ∃ info,
       dict_get p (active_instances (snd (register_instance p url st))) = Some info ∧
       info !! "api_version" = None).
Proof.
  split; [|split].
  - intros port info v Hget Hapi.
    eapply valid_record_version; [|done].
    eapply wf_store_get; [apply reachable_wf | done].
  - intros st p url kvs result w Hnet Hres Hw Hne.
    rewrite (register_instance_reject p url st _ (mismatch_message py_repr w) Hnet);
      [done|].
    rewrite (parse_plugin_version_result _ _ _ Hres).
    unfold obj_get. rewrite Hw. simpl. by rewrite Hne.
  - intros st p url body Hlock Hnet Hno.
    destruct (register_instance_pass p url st body _ Hnet
                (parse_plugin_version_no_result _ body Hno) Hlock) as [_ Hstore].
    eexists. rewrite Hstore. split; [apply dict_get_set_eq|].
    rewrite enriched_other by done. apply lookup_singleton_ne. done.
Qed.

(** *** The liveness sweep *)

#[global] Instance keeps_records_refl : Reflexive keeps_records.
Proof. by intros d k r. Qed.

#[global] Instance keeps_records_trans : Transitive keeps_records.
Proof. intros a b c H1 H2 k r H. by apply H2, H1. Qed.

#[global] Instance keeps_urls_refl : Reflexive keeps_urls.
Proof. intros d k r H. by exists r. Qed.

#[global] Instance keeps_urls_trans : Transitive keeps_urls.
Proof.
  intros a b c H1 H2 k r H.
  destruct (H1 k r H) as (r1 & Hr1 & Hu1).
  destruct (H2 k r1 Hr1) as (r2 & Hr2 & Hu2).
  exists r2. split; [done | congruence].
Qed.

(** Replacing a record by one with the same url. *)
Lemma keeps_urls_set port info info' d :
  dict_get port d = Some info →
  info' !! "url" = info !! "url" →
  keeps_urls d (dict_set port info' d).
Proof.
  intros Hget Hurl k r Hk. destruct (decide (port = k)) as [->|Hne].
  - exists info'. rewrite dict_get_set_eq. split; [done | congruence].
  - exists r. by rewrite dict_get_set_ne.
Qed.

Lemma elem_of_keys (p : Z) (info : gmap string json) items :
  (p, info) ∈ items → p ∈ items.*1.
Proof. intros H. by apply (list_elem_of_fmap_2 fst) in H. Qed.

Lemma backend_down_mono n n' u :
  (n ≤ n')%nat → backend_down net n u → backend_down net n' u.
Proof. intros Hle H k Hk. apply H. lia. Qed.

Lemma backend_up_mono n n' u :
  (n ≤ n')%nat → backend_up net n u → backend_up net n' u.
Proof. intros Hle H k Hk. apply H. lia. Qed.

(** The two ways the loop body of the sweep ends on a record with a url. *)
Lemma sweep_instance_cases port info u st :
  info !! "url" = Some (JStr u) →
  ∃ st',
    lock_held st' = lock_held st ∧
    (requests_made st ≤ requests_made st')%nat ∧
    ((probe_fails (net (requests_made st) (u +:+ "/plugin-version")) = true ∧
      sweep_instance port info st = (Ret true, st') ∧
      active_instances st' = active_instances st) ∨
     (probe_fails (net (requests_made st) (u +:+ "/plugin-version")) = false ∧
      sweep_instance port info st = (Ret false, st') ∧
      active_instances st' =
        dict_set port (enriched false net (S (requests_made st)) u info)
                 (active_instances st))).
Proof.
  intros Hu. rewrite sweep_instance_unfold, Hu. simpl.
  destruct (net (requests_made st) _) as [|[] body]; simpl;
    eexists; (split; [|split; [|first [left; by repeat split | right; by repeat split]]]);
    simpl; first [done | lia].
Qed.

Lemma sweep_spec items : ∀ acc st,
  NoDup items.*1 →
  (∀ p info, (p, info) ∈ items →
     dict_get p (active_instances st) = Some info ∧
     ∃ u, info !! "url" = Some (JStr u)) →
  ∃ ports st',
    sweep items acc st = (Ret ports, st') ∧
    lock_held st' = lock_held st ∧
    (active_instances st').*1 = (active_instances st).*1 ∧
    keeps_urls (active_instances st) (active_instances st') ∧
    (∀ p, p ∈ ports → p ∈ acc ∨ p ∈ items.*1) ∧
    (∀ p, p ∈ acc → p ∈ ports) ∧
    (NoDup acc → (∀ p, p ∈ acc → p ∉ items.*1) → NoDup ports) ∧
    (∀ p info u, (p, info) ∈ items → info !! "url" = Some (JStr u) →
                 backend_down net (requests_made st) u → p ∈ ports) ∧
    (∀ p info u, (p, info) ∈ items → info !! "url" = Some (JStr u) →
                 backend_up net (requests_made st) u → p ∉ acc → p ∉ ports).
Proof.
  induction items as [|[port info0] items IH]; intros acc st Hnd Hitems.
  - exists acc, st. simpl. split; [done|]. split; [done|]. split; [done|].
    split; [reflexivity|].
    split; [by left|]. split; [done|]. split; [done|].
    split; intros p info u Hin; by apply elem_of_nil in Hin.
  - apply NoDup_cons in Hnd as [Hport Hnd].
    destruct (Hitems port info0) as [Hget0 [u0 Hu0]]; [apply elem_of_cons; by left|].
    simpl. unfold bind.
    destruct (sweep_instance_cases port info0 u0 st Hu0)
      as (st1 & Hlock1 & Hclock & [(Hprobe & -> & Hstore1)|(Hprobe & -> & Hstore1)]).
    + (* marked for removal *)
      destruct (IH (acc ++ [port]) st1 Hnd) as
        (ports & st' & Hsw & Hlock & Hkeys & Hurls & Hsub & Hacc & Hnodup & Hdown & Hup).
      { intros p info Hin. rewrite Hstore1. apply Hitems. apply elem_of_cons. by right. }
      exists ports, st'. split; [done|]. split; [congruence|].
      split; [by rewrite <- Hstore1|].
      split; [by rewrite <- Hstore1|].
      split; [|split; [|split; [|split]]].
      * intros p [[Hp|Hp%list_elem_of_singleton]%elem_of_app|Hp]%Hsub.
        -- by left.
        -- right. simpl. apply elem_of_cons. by left.
        -- right. simpl. apply elem_of_cons. by right.
      * intros p Hp. apply Hacc, elem_of_app. by left.
      * intros Hndacc Hdisj. apply Hnodup.
        -- apply NoDup_app. split; [done|]. split; [|apply NoDup_singleton].
           intros x Hx ->%list_elem_of_singleton.
           apply (Hdisj port Hx). simpl. apply elem_of_cons. by left.
        -- intros p [Hp| ->%list_elem_of_singleton]%elem_of_app; [|done].
           intros Hin. apply (Hdisj p Hp). simpl. apply elem_of_cons. by right.
      * intros p info u [[= -> ->]|Hin]%elem_of_cons Hu Hd.
        -- apply Hacc, elem_of_app. right. by apply list_elem_of_singleton.
        -- eapply Hdown; [done..|]. by eapply backend_down_mono.
      * intros p info u [[= -> ->]|Hin]%elem_of_cons Hu Hupu Hnacc.
        -- exfalso. assert (u = u0) as -> by congruence.
           specialize (Hupu (requests_made st) (le_n _)). congruence.
        -- eapply Hup; [done..|by eapply backend_up_mono|].
           intros [Hp| ->%list_elem_of_singleton]%elem_of_app; [done|].
           by apply elem_of_keys in Hin.
    + (* alive: the record is refreshed in place *)
      destruct (IH acc st1 Hnd) as
        (ports & st' & Hsw & Hlock & Hkeys & Hurls & Hsub & Hacc & Hnodup & Hdown & Hup).
      { intros p info Hin. destruct (Hitems p info) as [Hg Hu];
          [apply elem_of_cons; by right|].
        split; [|done]. rewrite Hstore1, dict_get_set_ne; [done|].
        intros ->. by apply elem_of_keys in Hin. }
      exists ports, st'. split; [done|]. split; [congruence|]. split.
      { rewrite Hkeys, Hstore1. apply dict_set_keys_mem.
        unfold dict_mem. by rewrite Hget0. }
      split.
      { etransitivity; [|exact Hurls]. rewrite Hstore1.
        apply (keeps_urls_set port info0); [done|].
        by apply enriched_other. }
      split; [|split; [|split; [|split]]].
      * intros p [Hp|Hp]%Hsub; [by left|].
        right. simpl. apply elem_of_cons. by right.
      * done.
      * intros Hndacc Hdisj. apply Hnodup; [done|].
        intros p Hp Hin. apply (Hdisj p Hp). simpl. apply elem_of_cons. by right.
      * intros p info u [[= -> ->]|Hin]%elem_of_cons Hu Hd.
        -- exfalso. assert (u = u0) as -> by congruence.
           specialize (Hd (requests_made st) (le_n _)). congruence.
        -- eapply Hdown; [done..|]. by eapply backend_down_mono.
      * intros p info u [[= -> ->]|Hin]%elem_of_cons Hu Hupu Hnacc.
        -- intros [Hp|Hp]%Hsub; done.
        -- eapply Hup; [done..|by eapply backend_up_mono|done].
Qed.

Lemma dict_del_keys_ne {V} (k p : Z) (d : list (Z * V)) :
  k ≠ p → p ∈ d.*1 → p ∈ (dict_del k d).*1.
Proof.
  intros Hne Hin. destruct (decide (p ∈ (dict_del k d).*1)) as [|Hn]; [done|].
  apply dict_get_None_keys in Hn. rewrite dict_get_del_ne in Hn by done.
  by apply dict_get_None_keys in Hn.
Qed.

Lemma remove_ports_spec ports : ∀ st,
  NoDup ports →
  (∀ p, p ∈ ports → p ∈ (active_instances st).*1) →
  ∃ st',
    remove_ports ports st = (Ret tt, st') ∧
    lock_held st' = lock_held st ∧
    ∀ k, dict_get k (active_instances st') =
         if decide (k ∈ ports) then None else dict_get k (active_instances st).
Proof.
  induction ports as [|port ports IH]; intros st Hnd Hin.
  - exists st. split; [done|]. split; [done|]. intros k.
    destruct (decide (k ∈ [])) as [H|]; [by apply elem_of_nil in H | done].
  - apply NoDup_cons in Hnd as [Hport Hnd].
    simpl. unfold bind, del_instance, bind, get_store.
    assert (dict_mem port (active_instances st) = true) as ->.
    { apply dict_mem_keys, Hin, elem_of_cons. by left. }
    simpl.
    destruct (IH (set_store (dict_del port (active_instances st)) st) Hnd)
      as (st' & Hrm & Hlock & Hget).
    { intros p Hp. simpl. apply dict_del_keys_ne; [by intros ->|].
      apply Hin, elem_of_cons. by right. }
    exists st'. split; [done|]. split; [done|]. intros k. rewrite Hget. simpl.
    destruct (decide (k ∈ ports)) as [Hk|Hk].
    + rewrite decide_True; [done|]. apply elem_of_cons. by right.
    + destruct (decide (k = port)) as [->|Hne].
      * rewrite decide_True by (apply elem_of_cons; by left). apply dict_get_del_eq.
      * rewrite decide_False; [by apply dict_get_del_ne|].
        intros [?|?]%elem_of_cons; done.
Qed.

(** The sweep with the lock free, on a well-formed store. *)
Lemma liveness_sweep_spec st :
  wf_store py_repr (active_instances st) →
  lock_held st = false →
  ∃ (ports : list Z) d_sw st',
    liveness_sweep st = (Ret tt, st') ∧
    lock_held st' = false ∧
    keeps_urls (active_instances st) d_sw ∧
    d_sw.*1 = (active_instances st).*1 ∧
    (∀ k, dict_get k (active_instances st') =
          if decide (k ∈ ports) then None else dict_get k d_sw) ∧
    (∀ p info u, dict_get p (active_instances st) = Some info →
                 info !! "url" = Some (JStr u) →
                 backend_down net (requests_made st) u → p ∈ ports) ∧
    (∀ p info u, dict_get p (active_instances st) = Some info →
                 info !! "url" = Some (JStr u) →
                 backend_up net (requests_made st) u → p ∉ ports).
Proof.
  intros [Hnd Hall] Hlock.
  unfold liveness_sweep, with_lock, acquire. rewrite Hlock.
  unfold bind at 1. unfold get_store at 1. cbn [active_instances].
  set (st_a := {| active_instances := active_instances st;
                  current_instance_port := current_instance_port st;
                  lock_held := true;
                  requests_made := requests_made st;
                  trace := trace st ++ [EAcquire] |}).
  destruct (sweep_spec (active_instances st) [] st_a Hnd)
    as (ports & st1 & Hsw & Hlock1 & Hkeys & Hurls & Hsub & _ & Hnodup & Hdown & Hup).
  { intros p info Hin. split; [by apply dict_get_NoDup|].
    apply valid_record_url.
    by apply (proj1 (Forall_forall _ _) Hall (p, info)). }
  unfold bind. rewrite Hsw.
  destruct (remove_ports_spec ports st1) as (st2 & Hrm & Hlock2 & Hget).
  { apply Hnodup; [apply NoDup_nil_2|]. intros p Hp. by apply elem_of_nil in Hp. }
  { intros p [Hp|Hp]%Hsub; [by apply elem_of_nil in Hp|]. by rewrite Hkeys. }
  rewrite Hrm. simpl.
  exists ports, (active_instances st1), (snd (release st2)).
  split; [done|]. split; [done|]. split; [done|]. split; [done|].
  split; [done|]. split.
  - intros p info u Hp Hu Hd. eapply Hdown; [by apply dict_get_elem|done..].
  - intros p info u Hp Hu Hupu. eapply Hup; [by apply dict_get_elem|done..|].
    intros H. by apply elem_of_nil in H.
Qed.

(** *** Discovery never removes or changes a record *)

#[global] Instance keeps_others_refl port : Reflexive (keeps_others port).
Proof. by intros d k r. Qed.

#[global] Instance keeps_others_trans port : Transitive (keeps_others port).
Proof. intros a b c H1 H2 k r Hne H. by apply H2, H1. Qed.

#[global] Instance keeps_keys_refl : Reflexive keeps_keys.
Proof. by intros d k. Qed.

#[global] Instance keeps_keys_trans : Transitive keeps_keys.
Proof. intros a b c H1 H2 k H. by apply H2, H1. Qed.

#[global] Instance same_lock_refl : Reflexive same_lock.
Proof. by intros st. Qed.

#[global] Instance same_lock_trans : Transitive same_lock.
Proof. unfold same_lock. intros a b c H1 H2. congruence. Qed.

Lemma keeps_records_keys d d' : keeps_records d d' → keeps_keys d d'.
Proof.
  intros H k. unfold dict_mem. destruct (dict_get k d) as [r|] eqn:Hk; [|done].
  by rewrite (H k r Hk).
Qed.

Lemma register_instance_keeps_others port url :
  stable (on_store (keeps_others port)) (register_instance port url).
Proof.
  intros st k r Hne Hk.
  destruct (register_instance_store port url st) as [->|[info ->]]; [done|].
  by rewrite dict_get_set_ne.
Qed.

Lemma discover_port_keeps scan_host port found :
  stable (on_store keeps_records) (discover_port scan_host port found).
Proof.
  intros st. unfold discover_port. unfold bind at 1. unfold get_store at 1.
  destruct (dict_mem port (active_instances st)) eqn:Hmem; [reflexivity|].
  match goal with |- on_store _ st (snd (?m st)) =>
    assert (stable (on_store (keeps_others port)) m) as Hs
  end.
  { pose proof register_instance_keeps_others. unfold discover_body. stable_auto. }
  intros k r Hk. apply Hs; [|done]. intros ->.
  unfold dict_mem in Hmem. by rewrite Hk in Hmem.
Qed.
Hint Resolve discover_port_keeps : stable.

Lemma discover_loop_keeps scan_host port_range found :
  stable (on_store keeps_records) (discover_loop scan_host port_range found).
Proof.
  revert found. induction port_range as [|port rest IH]; intros found; simpl;
    stable_auto.
Qed.
Hint Resolve discover_loop_keeps : stable.

(** A discovery scan keeps every stored record as it is. *)
Lemma _discover_instances_keeps port_range host :
  stable (on_store keeps_records) (_discover_instances port_range host).
Proof. unfold _discover_instances. stable_auto. Qed.

(** *** The lock across register and discovery *)

Lemma register_instance_same_lock port url : stable same_lock (register_instance port url).
Proof.
  intros st. unfold same_lock. rewrite register_instance_unfold. simpl.
  destruct (net (requests_made st) _) as [|[] body]; try done.
  destruct (parse_plugin_version _ _ _); [done|].
  by destruct (lock_held st) eqn:E.
Qed.
Hint Resolve register_instance_same_lock : stable.

Lemma http_get_same_lock url : stable same_lock (http_get url).
Proof. by intros st. Qed.
Hint Resolve http_get_same_lock : stable.

Lemma discover_loop_same_lock scan_host port_range found :
  stable same_lock (discover_loop scan_host port_range found).
Proof.
  revert found. induction port_range as [|port rest IH]; intros found; simpl.
  - stable_auto.
  - apply stable_bind; [apply _ | | done].
    unfold discover_port, discover_body. stable_auto.
Qed.
Hint Resolve discover_loop_same_lock : stable.

Lemma _discover_instances_same_lock port_range host :
  stable same_lock (_discover_instances port_range host).
Proof. unfold _discover_instances. stable_auto. Qed.

(** *** The request count across register and discovery *)

#[global] Instance clock_grows_refl : Reflexive clock_grows.
Proof. intros st. unfold clock_grows. lia. Qed.

#[global] Instance clock_grows_trans : Transitive clock_grows.
Proof. unfold clock_grows. intros a b c H1 H2. lia. Qed.

Lemma http_get_clock url : stable clock_grows (http_get url).
Proof. intros st. unfold clock_grows. simpl. lia. Qed.
Hint Resolve http_get_clock : stable.

Lemma register_instance_clock port url : stable clock_grows (register_instance port url).
Proof.
  intros st. unfold clock_grows. rewrite register_instance_unfold. simpl.
  destruct (net (requests_made st) _) as [|[] body]; simpl; try lia.
  destruct (parse_plugin_version _ _ _); simpl; [lia|].
  destruct (lock_held st); simpl; lia.
Qed.
Hint Resolve register_instance_clock : stable.

Lemma discover_loop_clock scan_host port_range found :
  stable clock_grows (discover_loop scan_host port_range found).
Proof.
  revert found. induction port_range as [|port rest IH]; intros found; simpl.
  - stable_auto.
  - apply stable_bind; [apply _ | | done].
    unfold discover_port, discover_body. stable_auto.
Qed.
Hint Resolve discover_loop_clock : stable.


(** *** One refresher cycle *)

Lemma periodic_discovery_cycle_unfold st :
  periodic_discovery_cycle st =
  match _discover_instances FULL_DISCOVERY_RANGE None st with
  | (Ret _, st1) =>
      match liveness_sweep st1 with
      | (Raise _, st2) => (Ret tt, st2)
      | r => r
      end
  | (Raise _, st1) => (Ret tt, st1)
  | (Hang, st1) => (Hang, st1)
  end.
Proof.
  unfold periodic_discovery_cycle, try_pass, bind.
  by destruct (_discover_instances FULL_DISCOVERY_RANGE None st) as [[r|e|] st1].
Qed.

Lemma liveness_sweep_locked st :
  lock_held st = true → liveness_sweep st = (Hang, st).
Proof. intros H. unfold liveness_sweep, with_lock, acquire. by rewrite H. Qed.

Lemma stable_weaken (R R' : bridge → bridge → Prop) {A} (m : M A) :
  (∀ st st', R st st' → R' st st') → stable R m → stable R' m.
Proof. intros HR Hm st. apply HR, Hm. Qed.



(** A cycle never changes the url of a record. *)
Lemma cycle_urls st p info info' :
  wf_store py_repr (active_instances st) →
  dict_get p (active_instances st) = Some info →
  dict_get p (active_instances (snd (periodic_discovery_cycle st))) = Some info' →
  info' !! "url" = info !! "url".
Proof.
  intros Hwf Hget. rewrite periodic_discovery_cycle_unfold.
  pose proof (_discover_instances_wf FULL_DISCOVERY_RANGE None st Hwf) as Hwf1.
  pose proof (_discover_instances_keeps FULL_DISCOVERY_RANGE None st p info Hget) as Hget1.
  destruct (_discover_instances FULL_DISCOVERY_RANGE None st) as [[r'|e|] st1];
    simpl in *; [|congruence..].
  destruct (lock_held st1) eqn:Hlock1.
  - rewrite liveness_sweep_locked by done. simpl. congruence.
  - destruct (liveness_sweep_spec st1 Hwf1 Hlock1)
      as (ports & d_sw & st2 & -> & _ & Hurls & _ & Hafter & _ & _).
    simpl. rewrite Hafter. destruct (decide (p ∈ ports)); [done|].
    destruct (Hurls p info Hget1) as (r1 & Hget' & Hurl').
    congruence.
Qed.

(** *** Operations that never remove a key *)

Lemma register_instance_keeps_keys port url :
  stable (on_store keeps_keys) (register_instance port url).
Proof.
  intros st k Hk.
  destruct (register_instance_store port url st) as [->|[info ->]]; [done|].
  unfold dict_mem in *. destruct (decide (port = k)) as [->|Hne].
  - by rewrite dict_get_set_eq.
  - by rewrite dict_get_set_ne.
Qed.
Hint Resolve register_instance_keeps_keys : stable.

Lemma _discover_instances_keeps_keys port_range host :
  stable (on_store keeps_keys) (_discover_instances port_range host).
Proof.
  eapply stable_weaken; [|apply _discover_instances_keeps].
  intros st st'. apply keeps_records_keys.
Qed.
Hint Resolve _discover_instances_keeps_keys : stable.

Lemma get_instance_port_keeps_keys port :
  stable (on_store keeps_keys) (get_instance_port port).
Proof.
  intros st. unfold get_instance_port.
  fold (resolved_port port st). set (p := resolved_port port st).
  destruct (dict_mem p (active_instances st)); [reflexivity|].
  match goal with |- on_store _ st (snd (?m st)) =>
    assert (stable (on_store keeps_keys) m) as Hs by stable_auto
  end.
  apply Hs.
Qed.
Hint Resolve get_instance_port_keeps_keys : stable.





(** C8 (amended). Registering a port that is already stored, in a
    reachable state: the call either leaves the store as it was or
    replaces the whole record under the same key, keeping the keys and
    their order; the url of the new record is the url of the call (the
    default URL of the port when none is given), whatever the old url
    was; when the handshake passes and the lock is free the new record
    is built from the two responses alone. A refresher cycle never
    changes the url of a record it keeps. *)
Theorem reregistration_replaces_record ops p url info :
  dict_get p (active_instances (run_ops ops initial_bridge)) = Some info →
  (active_instances (snd (register_instance p url (run_ops ops initial_bridge))) =
     active_instances (run_ops ops initial_bridge) ∨
   ∃ info',
     active_instances (snd (register_instance p url (run_ops ops initial_bridge))) =
       dict_set p info' (active_instances (run_ops ops initial_bridge)) ∧
     dict_get p (active_instances
                   (snd (register_instance p url (run_ops ops initial_bridge)))) = Some info' ∧
     info' !! "url" = Some (JStr (handshake_url GHIDRA_HOST p url)) ∧
     (active_instances (snd (register_instance p url (run_ops ops initial_bridge)))).*1 =
       (active_instances (run_ops ops initial_bridge)).*1) ∧
  (∀ body info0,
     lock_held (run_ops ops initial_bridge) = false →
     net (requests_made (run_ops ops initial_bridge))
         (handshake_url GHIDRA_HOST p url +:+ "/plugin-version") = HResp true body →
     parse_plugin_version py_repr
       {["url" := JStr (handshake_url GHIDRA_HOST p url)]} body = inr info0 →
     dict_get p (active_instances
                   (snd (register_instance p url (run_ops ops initial_bridge)))) =
       Some (enriched true net (S (requests_made (run_ops ops initial_bridge)))
                      (handshake_url GHIDRA_HOST p url) info0)) ∧
  (∀ info',
     dict_get p (active_instances
                   (snd (periodic_discovery_cycle (run_ops ops initial_bridge)))) = Some info' →
     info' !! "url" = info !! "url").
Proof.
  intros Hget. split; [|split].
  - destruct (register_instance_store_valid p url (run_ops ops initial_bridge))
      as [Hs|(info' & _ & Hurl & Hs)]; [by left|].
    right. exists info'. rewrite Hs. split; [done|]. split; [apply dict_get_set_eq|].
    split; [done|]. apply dict_set_keys_mem. unfold dict_mem. by rewrite Hget.
  - intros body info0 Hlock Hnet Hparse.
    destruct (register_instance_pass p url _ body info0 Hnet Hparse Hlock) as [_ ->].
    apply dict_get_set_eq.
  - intros info'. apply cycle_urls; [apply reachable_wf | done].
Qed.

(** *** The unguarded [record["url"]] accesses *)

Lemma list_entries_returns items st :
  (∀ p info, (p, info) ∈ items → ∃ u, info !! "url" = Some (JStr u)) →
  ∃ es, list_entries items st = (Ret es, st).
Proof.
  induction items as [|[port info] items IH]; intros Hall; simpl; [by eexists|].
  destruct (Hall port info) as [u Hu]; [apply elem_of_cons; by left|].
  destruct IH as [es Hes].
  { intros p i Hin. apply (Hall p i). apply elem_of_cons. by right. }
  unfold bind, list_entry, record_url, bind. rewrite Hu. simpl. rewrite Hes.
  by eexists.
Qed.

Lemma wf_store_urls d p info :
  wf_store py_repr d → (p, info) ∈ d → ∃ u, info !! "url" = Some (JStr u).
Proof.
  intros [_ Hall] Hin. apply valid_record_url.
  by apply (proj1 (Forall_forall _ _) Hall (p, info)).
Qed.

Lemma discover_port_no_key_error scan_host port found st :
  fst (discover_port scan_host port found st) ≠ Raise KeyError.
Proof.
  unfold discover_port, bind, get_store.
  destruct (dict_mem port (active_instances st)); [done|]. simpl.
  destruct (net (requests_made st) _) as [|[] [json_data|]]; try done.
  unfold catch_value_key.
  by destruct (discover_body _ _ _ _ _) as [[a|[]|] st'].
Qed.

Lemma discover_loop_no_key_error scan_host port_range : ∀ found st,
  fst (discover_loop scan_host port_range found st) ≠ Raise KeyError.
Proof.
  induction port_range as [|port rest IH]; intros found st; simpl; [done|].
  unfold bind. pose proof (discover_port_no_key_error scan_host port found st) as Hp.
  destruct (discover_port scan_host port found st) as [[a|e|] st']; simpl in *;
    [apply IH | done | done].
Qed.

Lemma _discover_instances_no_key_error port_range host st :
  fst (_discover_instances port_range host st) ≠ Raise KeyError.
Proof.
  unfold _discover_instances, bind.
  pose proof (discover_loop_no_key_error
                (match host with Some h => h | None => GHIDRA_HOST end)
                port_range [] st) as Hl.
  destruct (discover_loop _ port_range [] st) as [[a|e|] st']; simpl in *;
    [done | intros [= ->]; by apply Hl | done].
Qed.

Lemma instances_discover_no_key_error host st :
  wf_store py_repr (active_instances st) →
  fst (instances_discover host st) ≠ Raise KeyError.
Proof.
  intros Hwf. unfold instances_discover, bind.
  pose proof (_discover_instances_no_key_error QUICK_DISCOVERY_RANGE host st) as Hd.
  pose proof (_discover_instances_wf QUICK_DISCOVERY_RANGE host st Hwf) as Hwf1.
  destruct (_discover_instances QUICK_DISCOVERY_RANGE host st) as [[r|e|] st1];
    simpl in *; [|intros [= ->]; by apply Hd|done].
  unfold with_lock, acquire. destruct (lock_held st1); [done|].
  unfold bind, get_store. simpl.
  match goal with |- context [list_entries ?d ?s] =>
    destruct (list_entries_returns d s) as [es ->]
  end; [|done].
  intros p info Hin. by eapply wf_store_urls.
Qed.

Lemma get_instance_url_no_key_error port st :
  wf_store py_repr (active_instances st) →
  fst (get_instance_url port st) ≠ Raise KeyError.
Proof.
  intros Hwf. unfold get_instance_url, bind at 1, with_lock, acquire.
  destruct (lock_held st) eqn:Hlock; [done|].
  unfold bind at 1. unfold get_store at 1. cbn [active_instances fst snd].
  destruct (dict_get port (active_instances st)) as [info|] eqn:Hget.
  - destruct (wf_store_urls _ port info Hwf) as [u Hu]; [by apply dict_get_elem|].
    unfold bind, record_url. rewrite Hu. done.
  - destruct ((8192 <=? port) && (port <=? 65535)); [|done].
    unfold bind at 1. rewrite register_instance_unfold. cbn.
    destruct (net (requests_made st) _) as [|[] body]; cbn; rewrite ?Hget; try done.
    destruct (parse_plugin_version _ _ _); cbn; rewrite ?Hget; done.
Qed.

Lemma liveness_sweep_no_raise st e :
  wf_store py_repr (active_instances st) →
  fst (liveness_sweep st) ≠ Raise e.
Proof.
  intros Hwf. destruct (lock_held st) eqn:Hlock.
  - by rewrite liveness_sweep_locked.
  - by destruct (liveness_sweep_spec st Hwf Hlock) as (ports & d_sw & st' & -> & _).
Qed.

(** C10. In every reachable state every stored record has a ["url"]
    field, a string: each [record["url"]] evaluates, and neither
    [get_instance_url], nor the liveness sweep of the refresher, nor
    the list tools raise a [KeyError]. *)
Theorem stored_records_have_url ops :
  (∀ port info,
     dict_get port (active_instances (run_ops ops initial_bridge)) = Some info →
     ∃ u, info !! "url" = Some (JStr u)) ∧
  (∀ port info,
     (port, info) ∈ active_instances (run_ops ops initial_bridge) →
     ∃ u, record_url info (run_ops ops initial_bridge) =
            (Ret (JStr u), run_ops ops initial_bridge)) ∧
  (∀ port, fst (get_instance_url port (run_ops ops initial_bridge)) ≠ Raise KeyError) ∧
  (∀ e, fst (liveness_sweep (run_ops ops initial_bridge)) ≠ Raise e) ∧
  fst (instances_list (run_ops ops initial_bridge)) ≠ Raise KeyError ∧
  (∀ host, fst (instances_discover host (run_ops ops initial_bridge)) ≠ Raise KeyError).
Proof.
  pose proof (reachable_wf ops) as Hwf.
  split; [|split; [|split; [|split; [|split]]]].
  - intros port info Hget. eapply wf_store_urls; [done | by apply dict_get_elem].
  - intros port info Hin. destruct (wf_store_urls _ port info Hwf Hin) as [u Hu].
    exists u. unfold record_url. by rewrite Hu.
  - intros port. by apply get_instance_url_no_key_error.
  - intros e. by apply liveness_sweep_no_raise.
  - by apply instances_discover_no_key_error.
  - intros host. by apply instances_discover_no_key_error.
Qed.

(** *** The lock and the network *)

Lemma scan_trace_snoc evs e : scan_trace (evs ++ [e]) = lock_step (scan_trace evs) e.
Proof. unfold scan_trace. by rewrite fold_left_app. Qed.










(** *** Requests relative to the lock, operation by operation *)

#[global] Instance runs_outside_lock_refl : Reflexive runs_outside_lock.
Proof. intros st Hlock. exists []. by rewrite app_nil_r. Qed.

#[global] Instance runs_outside_lock_trans : Transitive runs_outside_lock.
Proof.
  intros a b c H1 H2 Hlock.
  destruct (H1 Hlock) as (e1 & Ht1 & Hs1 & Hl1).
  destruct (H2 Hl1) as (e2 & Ht2 & Hs2 & Hl2).
  exists (e1 ++ e2). split; [by rewrite Ht2, Ht1, app_assoc|]. split; [|done].
  unfold scan_trace in *. by rewrite fold_left_app, Hs1.
Qed.










(** *** The requests of the liveness sweep *)





(** *** Further properties of the discovery scanner *)

#[global] Instance requests_within_refl U : Reflexive (requests_within U).
Proof.
  intros st. exists []. split; [by rewrite app_nil_r|].
  intros u Hu. by apply elem_of_nil in Hu.
Qed.

#[global] Instance requests_within_trans U : Transitive (requests_within U).
Proof.
  intros a b c (e1 & H1 & Hu1) (e2 & H2 & Hu2). exists (e1 ++ e2).
  split; [by rewrite H2, H1, app_assoc|].
  intros u [Hu|Hu]%elem_of_app; auto.
Qed.

Lemma requests_within_weaken (U U' : string → Prop) st st' :
  (∀ u, U u → U' u) → requests_within U st st' → requests_within U' st st'.
Proof. intros HU (evs & Ht & Hu). exists evs. split; [done|]. auto. Qed.

Lemma http_get_requests_within (U : string → Prop) url :
  U url → stable (requests_within U) (http_get url).
Proof.
  intros HU st. exists [EHttp url]. split; [done|].
  intros u Hu%list_elem_of_singleton. by injection Hu as ->.
Qed.

Lemma register_instance_requests_within port url :
  stable (requests_within (instance_endpoint (handshake_url GHIDRA_HOST port url)))
         (register_instance port url).
Proof. intros st. apply register_instance_trace. Qed.

(** One iteration of the scan sends requests only when its port is not
    stored, and then only to that port. *)
Lemma discover_port_requests scan_host port found st :
  requests_within
    (λ u, dict_mem port (active_instances st) = false ∧
          instance_endpoint (instance_url scan_host port) u)
    st (snd (discover_port scan_host port found st)).
Proof.
  unfold discover_port. unfold bind at 1. unfold get_store at 1.
  destruct (dict_mem port (active_instances st)) eqn:Hmem; [reflexivity|].
  eapply requests_within_weaken;
    [intros u Hu; split; [reflexivity | exact Hu]|].
  match goal with |- requests_within ?U st (snd (?m st)) =>
    assert (stable (requests_within U) m) as Hs; [|apply Hs]
  end.
  pose proof (register_instance_requests_within port
                (Some (instance_url scan_host port))) as Hreg.
  apply stable_bind; [apply _ | apply http_get_requests_within; by left |].
  unfold discover_body. stable_auto.
Qed.

Lemma discover_loop_requests scan_host port_range : ∀ found st,
  requests_within
    (λ u, ∃ p, p ∈ port_range ∧ dict_mem p (active_instances st) = false ∧
               instance_endpoint (instance_url scan_host p) u)
    st (snd (discover_loop scan_host port_range found st)).
Proof.
  induction port_range as [|port rest IH]; intros found st; [reflexivity|].
  simpl. unfold bind.
  pose proof (discover_port_requests scan_host port found st) as Hp.
  pose proof (discover_port_keeps scan_host port found st) as Hk.
  destruct (discover_port scan_host port found st) as [[found'|e|] st1]; simpl in *.
  - etransitivity.
    + eapply requests_within_weaken; [|exact Hp].
      intros u [Hm Hu]. exists port. split; [apply elem_of_cons; by left | done].
    + eapply requests_within_weaken; [|apply IH].
      intros u (p & Hin & Hm & Hu). exists p.
      split; [apply elem_of_cons; by right|]. split; [|done].
      destruct (dict_mem p (active_instances st)) eqn:E; [|done].
      apply keeps_records_keys in Hk. by rewrite (Hk p E) in Hm.
  - eapply requests_within_weaken; [|exact Hp].
    intros u [Hm Hu]. exists port. split; [apply elem_of_cons; by left | done].
  - eapply requests_within_weaken; [|exact Hp].
    intros u [Hm Hu]. exists port. split; [apply elem_of_cons; by left | done].
Qed.

(** X1. A discovery scan never sends a request for a port that is
    already stored: every request of the scan goes to the
    [/plugin-version] or [/program] URL of a port of the range that had
    no record when the scan started. *)
Theorem discovery_probes_only_unstored port_range host st :
  ∃ evs,
    trace (snd (_discover_instances port_range host st)) = trace st ++ evs ∧
    ∀ u, EHttp u ∈ evs →
      ∃ p, p ∈ port_range ∧
           dict_mem p (active_instances st) = false ∧
           (u = instance_url (default GHIDRA_HOST host) p +:+ "/plugin-version" ∨
            u = instance_url (default GHIDRA_HOST host) p +:+ "/program").
Proof.
  unfold _discover_instances, bind.
  assert (default GHIDRA_HOST host =
          match host with Some h => h | None => GHIDRA_HOST end) as -> by (by destruct host).
  pose proof (discover_loop_requests
                (match host with Some h => h | None => GHIDRA_HOST end)
                port_range [] st) as Hl.
  by destruct (discover_loop _ port_range [] st) as [[found|e|] st1].
Qed.

#[global] Instance adds_only_refl S : Reflexive (adds_only S).
Proof. intros d k Hk. by left. Qed.

#[global] Instance adds_only_trans S : Transitive (adds_only S).
Proof.
  intros a b c H1 H2 k Hk. destruct (H2 k Hk) as [Hb|HS]; [by apply H1 | by right].
Qed.

Lemma adds_only_weaken (S S' : Z → Prop) d d' :
  (∀ k, S k → S' k) → adds_only S d d' → adds_only S' d d'.
Proof. intros HS H k Hk. destruct (H k Hk); [by left | right; auto]. Qed.

Lemma register_instance_adds_only port url :
  stable (on_store (adds_only (λ k, k = port))) (register_instance port url).
Proof.
  intros st k Hk.
  destruct (register_instance_store port url st) as [Hs|[info Hs]];
    rewrite Hs in Hk; [by left|].
  destruct (decide (k = port)) as [->|Hne]; [by right|]. left.
  unfold dict_mem in *. by rewrite dict_get_set_ne in Hk.
Qed.

Lemma discover_loop_adds_only scan_host port_range : ∀ found,
  stable (on_store (adds_only (λ k, k ∈ port_range)))
         (discover_loop scan_host port_range found).
Proof.
  induction port_range as [|port rest IH]; intros found; simpl.
  - apply stable_ret; apply _.
  - apply stable_bind; [apply _ | |].
    + eapply (stable_weaken (on_store (adds_only (λ k, k = port)))).
      { intros st st'. apply adds_only_weaken. intros k ->. apply elem_of_cons. by left. }
      pose proof (register_instance_adds_only port) as Hreg.
      unfold discover_port, discover_body. stable_auto.
    + intros found'.
      eapply (stable_weaken (on_store (adds_only (λ k, k ∈ rest)))); [|apply IH].
      intros st st'. apply adds_only_weaken. intros k Hk. apply elem_of_cons. by right.
Qed.

(** X2. A discovery scan adds only ports of its range: a port that
    has a record after the scan had one before it or belongs to the
    scanned range; and every record stored before is still there,
    unchanged. *)
Theorem discovery_adds_only_range port_range host st :
  (∀ k, dict_mem k (active_instances (snd (_discover_instances port_range host st))) = true →
        dict_mem k (active_instances st) = true ∨ k ∈ port_range) ∧
  (∀ k r, dict_get k (active_instances st) = Some r →
          dict_get k (active_instances (snd (_discover_instances port_range host st)))
            = Some r).
Proof.
  split; [|apply _discover_instances_keeps].
  assert (stable (on_store (adds_only (λ k, k ∈ port_range)))
                 (_discover_instances port_range host)) as Hs.
  { unfold _discover_instances. pose proof discover_loop_adds_only. stable_auto. }
  apply Hs.
Qed.

(** One iteration of the scan as a case analysis on its probe. *)
Lemma discover_port_unfold scan_host port found st :
  discover_port scan_host port found st =
  if dict_mem port (active_instances st) then (Ret found, st)
  else
    match net (requests_made st) (instance_url scan_host port +:+ "/plugin-version") with
    | HResp true (Some json_data) =>
        catch_value_key
          (discover_body port (instance_url scan_host port) json_data found)
          (ret found)
          (snd (http_get (instance_url scan_host port +:+ "/plugin-version") st))
    | _ => (Ret found,
            snd (http_get (instance_url scan_host port +:+ "/plugin-version") st))
    end.
Proof.
  unfold discover_port, bind, get_store.
  destruct (dict_mem port (active_instances st)); [done|]. simpl.
  by destruct (net (requests_made st) _) as [|[] [json_data|]].
Qed.


(** *** A scan over a whole range *)








(** *** Further properties of the instance tools *)

Lemma dict_del_not_mem {V} (k : Z) (d : list (Z * V)) :
  dict_mem k d = false → dict_del k d = d.
Proof.
  unfold dict_mem. induction d as [|[k' v'] d IH]; simpl; [done|].
  destruct (k' =? k) eqn:E; [done|]. intros H. f_equal. by apply IH.
Qed.

Lemma dict_del_set_new {V} (k : Z) (v : V) (d : list (Z * V)) :
  dict_mem k d = false → dict_del k (dict_set k v d) = d.
Proof.
  unfold dict_mem. induction d as [|[k' v'] d IH]; simpl.
  - by rewrite Z.eqb_refl.
  - destruct (k' =? k) eqn:E; [done|]. simpl. rewrite E. intros H. f_equal. by apply IH.
Qed.

Lemma dict_set_set {V} (k : Z) (v w : V) (d : list (Z * V)) :
  dict_set k w (dict_set k v d) = dict_set k w d.
Proof.
  induction d as [|[k' v'] d IH]; simpl.
  - by rewrite Z.eqb_refl.
  - destruct (k' =? k) eqn:E; simpl.
    + by rewrite Z.eqb_refl.
    + rewrite E. by f_equal.
Qed.

(** [instances_unregister] with the lock free, as one equation. *)
Lemma instances_unregister_unfold p st :
  lock_held st = false →
  instances_unregister p st =
    (Ret (if dict_mem p (active_instances st)
          then "Unregistered instance on port " +:+ pretty p
          else "No instance found on port " +:+ pretty p),
     snd (release (set_store (dict_del p (active_instances st)) (snd (acquire st))))).
Proof.
  intros Hlock. unfold instances_unregister, with_lock, acquire. rewrite Hlock.
  unfold bind, get_store, del_instance, bind, get_store. simpl.
  destruct (dict_mem p (active_instances st)) eqn:Hmem; simpl.
  - by rewrite Hmem.
  - unfold set_store. simpl. by rewrite dict_del_not_mem.
Qed.

(** X5. Unregistering a port, by a caller that does not hold the
    lock: the message says whether the port had a record; afterwards
    the port has none, every other record is as it was, and the lock is
    free. Unregistering the same port again reports that no instance
    was found and changes nothing. *)
Theorem instances_unregister_spec p st :
  lock_held st = false →
  fst (instances_unregister p st) =
    Ret (if dict_mem p (active_instances st)
         then "Unregistered instance on port " +:+ pretty p
         else "No instance found on port " +:+ pretty p) ∧
  dict_mem p (active_instances (snd (instances_unregister p st))) = false ∧
  (∀ k, k ≠ p →
        dict_get k (active_instances (snd (instances_unregister p st))) =
        dict_get k (active_instances st)) ∧
  lock_held (snd (instances_unregister p st)) = false ∧
  fst (instances_unregister p (snd (instances_unregister p st))) =
    Ret ("No instance found on port " +:+ pretty p) ∧
  active_instances (snd (instances_unregister p (snd (instances_unregister p st)))) =
    active_instances (snd (instances_unregister p st)).
Proof.
  intros Hlock. rewrite (instances_unregister_unfold p st Hlock). simpl.
  assert (dict_mem p (dict_del p (active_instances st)) = false) as Hgone.
  { unfold dict_mem. by rewrite dict_get_del_eq. }
  split; [done|]. split; [done|].
  split; [intros k Hne; by apply dict_get_del_ne|]. split; [done|].
  rewrite instances_unregister_unfold by done. simpl. rewrite Hgone.
  split; [done|]. by apply dict_del_not_mem.
Qed.

(** X6. Registering a port that has no record and unregistering it
    again restores the store: whatever the handshake answered, the
    stored records and their order are those from before the two calls. *)
Theorem register_unregister_roundtrip p url st :
  lock_held st = false →
  dict_mem p (active_instances st) = false →
  active_instances (snd (instances_unregister p (snd (register_instance p url st)))) =
    active_instances st.
Proof.
  intros Hlock Hmem.
  pose proof (register_instance_same_lock p url st) as Hl. unfold same_lock in Hl.
  rewrite instances_unregister_unfold by congruence. simpl.
  destruct (register_instance_store p url st) as [->|[info ->]].
  - by apply dict_del_not_mem.
  - by apply dict_del_set_new.
Qed.

Lemma instances_use_stored p st :
  lock_held st = false →
  dict_mem p (active_instances st) = true →
  (∃ msg, fst (instances_use p st) = Ret msg) ∧
  active_instances (snd (instances_use p st)) = active_instances st ∧
  current_instance_port (snd (instances_use p st)) = p.
Proof.
  intros Hlock Hmem. unfold instances_use, bind, get_store. rewrite Hmem. simpl.
  unfold with_lock, acquire. simpl. rewrite Hlock. simpl.
  unfold dict_mem in Hmem.
  destruct (dict_get p (active_instances st)) as [info|]; [|done].
  simpl. split; [by eexists | done].
Qed.

Lemma instances_use_lazy p st :
  dict_mem p (active_instances st) = false →
  instances_use p st =
    match register_instance p None st with
    | (Ret _, st1) =>
        if dict_mem p (active_instances st1) then instances_use p st1
        else (Ret ("Error: No active Ghidra instance found on port " +:+ pretty p), st1)
    | (Raise e, st1) => (Raise e, st1)
    | (Hang, st1) => (Hang, st1)
    end.
Proof.
  intros Hmem. unfold instances_use at 1. unfold bind, get_store. rewrite Hmem.
  destruct (register_instance p None st) as [[msg|e|] st1]; simpl; try done.
  destruct (dict_mem p (active_instances st1)) eqn:Hm1; simpl; [|done].
  unfold instances_use, bind, get_store. by rewrite Hm1.
Qed.

(** X7. [instances_use], by a caller that does not hold the lock,
    never points the current port at a port without a record: either
    the port has a record afterwards and is the current port, or it has
    none, the error message is returned and the current port is the one
    from before. *)
Theorem instances_use_spec p st :
  lock_held st = false →
  (dict_mem p (active_instances (snd (instances_use p st))) = true ∧
   current_instance_port (snd (instances_use p st)) = p ∧
   ∃ msg, fst (instances_use p st) = Ret msg) ∨
  (dict_mem p (active_instances (snd (instances_use p st))) = false ∧
   current_instance_port (snd (instances_use p st)) = current_instance_port st ∧
   fst (instances_use p st) =
     Ret ("Error: No active Ghidra instance found on port " +:+ pretty p)).
Proof.
  intros Hlock.
  destruct (dict_mem p (active_instances st)) eqn:Hmem.
  - destruct (instances_use_stored p st Hlock Hmem) as (Hmsg & Hs & Hc).
    left. by rewrite Hs.
  - rewrite instances_use_lazy by done.
    pose proof (register_instance_same_lock p None st) as Hl. unfold same_lock in Hl.
    pose proof (register_instance_returns p None st Hlock) as [m Hm].
    assert (current_instance_port (snd (register_instance p None st)) =
            current_instance_port st) as Hcur.
    { rewrite register_instance_unfold. simpl.
      destruct (net (requests_made st) _) as [|[] body]; try done.
      destruct (parse_plugin_version _ _ _); [done|]. by rewrite Hlock. }
    destruct (register_instance p None st) as [[msg|e|] st1]; simpl in *; try done.
    destruct (dict_mem p (active_instances st1)) eqn:Hm1.
    + destruct (instances_use_stored p st1) as (Hmsg & Hs & Hc); [congruence | done |].
      left. by rewrite Hs.
    + right. simpl. by rewrite Hm1.
Qed.

(** *** The current port *)

#[global] Instance same_current_refl : Reflexive same_current.
Proof. by intros st. Qed.

#[global] Instance same_current_trans : Transitive same_current.
Proof. unfold same_current. intros a b c H1 H2. congruence. Qed.

Lemma http_get_same_current url : stable same_current (http_get url).
Proof. by intros st. Qed.

Lemma put_store_same_current d : stable same_current (put_store d).
Proof. by intros st. Qed.

Lemma with_lock_same_current {A} (body : M A) :
  stable same_current body → stable same_current (with_lock body).
Proof.
  apply stable_with_lock; [apply _ .. | |].
  - intros st. unfold same_current, acquire. by destruct (lock_held st).
  - by intros st.
Qed.

Ltac current_auto :=
  repeat first
    [ apply http_get_same_current
    | apply put_store_same_current
    | apply with_lock_same_current
    | stable_step ].

Lemma register_instance_same_current port url :
  stable same_current (register_instance port url).
Proof. unfold register_instance, fetch_program. current_auto. Qed.

Lemma get_instance_port_same_current port :
  stable same_current (get_instance_port port).
Proof.
  intros st. unfold get_instance_port.
  fold (resolved_port port st). set (p := resolved_port port st).
  destruct (dict_mem p (active_instances st)); [reflexivity|].
  pose proof register_instance_same_current as Hreg.
  match goal with |- same_current st (snd (?m st)) =>
    assert (stable same_current m) as Hs by current_auto
  end.
  apply Hs.
Qed.

Lemma discover_loop_same_current scan_host port_range : ∀ found,
  stable same_current (discover_loop scan_host port_range found).
Proof.
  pose proof register_instance_same_current as Hreg.
  induction port_range as [|port rest IH]; intros found; simpl.
  - current_auto.
  - apply stable_bind; [apply _ | | done].
    unfold discover_port, discover_body. current_auto.
Qed.

Lemma _discover_instances_same_current port_range host :
  stable same_current (_discover_instances port_range host).
Proof.
  unfold _discover_instances. pose proof discover_loop_same_current. current_auto.
Qed.

Lemma sweep_same_current items : ∀ acc, stable same_current (sweep items acc).
Proof.
  induction items as [|[port info] items IH]; intros acc; simpl.
  - current_auto.
  - apply stable_bind; [apply _ | | done].
    unfold sweep_instance, fetch_program. current_auto.
Qed.

Lemma remove_ports_same_current ports : stable same_current (remove_ports ports).
Proof.
  induction ports as [|port ports IH]; simpl; [current_auto|].
  apply stable_bind; [apply _ | | done].
  unfold del_instance. current_auto.
Qed.

Lemma liveness_sweep_same_current : stable same_current liveness_sweep.
Proof.
  unfold liveness_sweep.
  pose proof sweep_same_current. pose proof remove_ports_same_current.
  current_auto.
Qed.

(** X8. Only [instances_use] and [set_current_port] assign the
    current port: registering, scanning, a refresher cycle, bootstrap,
    listing, unregistering (also of the current port itself), resolving
    and [get_instance_url] all leave it as it was. *)
Theorem current_port_unchanged o st :
  moves_current o = false →
  current_instance_port (run_op o st) = current_instance_port st.
Proof.
  intros Ho.
  assert (∀ A (m : M A), stable same_current m →
            current_instance_port (snd (m st)) = current_instance_port st) as Hk.
  { intros A m Hs. exact (Hs st). }
  pose proof register_instance_same_current as Hreg.
  pose proof _discover_instances_same_current as Hdisc.
  pose proof get_instance_port_same_current as Hres.
  pose proof liveness_sweep_same_current as Hsw.
  destruct o as [port url|port_range host| | | |host|q|port|port|port|port];
    unfold run_op; try done; apply Hk.
  - current_auto.
  - current_auto.
  - unfold periodic_discovery_cycle.
    pose proof sweep_same_current. pose proof remove_ports_same_current.
    current_auto.
  - unfold bootstrap_instances. current_auto.
  - unfold instances_list, instances_discover. current_auto.
  - unfold instances_discover. current_auto.
  - unfold instances_unregister, del_instance. current_auto.
  - current_auto.
  - unfold get_instance_url. current_auto.
Qed.

(** *** Further properties of [get_instance_url] *)

Lemma get_instance_url_stored port st info u :
  lock_held st = false →
  dict_get port (active_instances st) = Some info →
  info !! "url" = Some u →
  get_instance_url port st = (Ret u, snd (release (snd (acquire st)))).
Proof.
  intros Hlock Hget Hu.
  unfold get_instance_url, bind at 1, with_lock, acquire. rewrite Hlock.
  unfold bind at 1. unfold get_store at 1. cbn [active_instances fst snd].
  rewrite Hget. unfold bind, record_url. rewrite Hu. done.
Qed.

Lemma get_instance_url_out_of_range port st :
  lock_held st = false →
  dict_get port (active_instances st) = None →
  port < 8192 ∨ 65535 < port →
  get_instance_url port st =
    (Ret (JStr (instance_url GHIDRA_HOST port)), snd (release (snd (acquire st)))).
Proof.
  intros Hlock Hget Hrange.
  assert ((8192 <=? port) && (port <=? 65535) = false) as Hr.
  { apply andb_false_iff. destruct Hrange; [left|right]; apply Z.leb_gt; lia. }
  unfold get_instance_url, bind at 1, with_lock, acquire. rewrite Hlock.
  unfold bind at 1. unfold get_store at 1. cbn [active_instances fst snd].
  rewrite Hget, Hr. done.
Qed.

(** X9. [get_instance_url] without network traffic, for a caller
    that does not hold the lock: for a stored port it returns the url
    of the record, and for a port that is not stored and lies outside
    8192..65535 it returns the default URL of the port. In both cases
    the store is untouched, the lock was taken and released, and no
    request was sent. *)
Theorem get_instance_url_offline port st :
  lock_held st = false →
  (∀ info u,
     dict_get port (active_instances st) = Some info →
     info !! "url" = Some u →
     fst (get_instance_url port st) = Ret u ∧
     active_instances (snd (get_instance_url port st)) = active_instances st ∧
     lock_held (snd (get_instance_url port st)) = false ∧
     trace (snd (get_instance_url port st)) = trace st ++ [EAcquire; ERelease]) ∧
  (dict_get port (active_instances st) = None →
   port < 8192 ∨ 65535 < port →
   fst (get_instance_url port st) = Ret (JStr (instance_url GHIDRA_HOST port)) ∧
   active_instances (snd (get_instance_url port st)) = active_instances st ∧
   lock_held (snd (get_instance_url port st)) = false ∧
   trace (snd (get_instance_url port st)) = trace st ++ [EAcquire; ERelease]).
Proof.
  intros Hlock. split.
  - intros info u Hget Hu. rewrite (get_instance_url_stored port st info u) by done.
    unfold acquire. rewrite Hlock. simpl. by rewrite <- app_assoc.
  - intros Hget Hrange. rewrite get_instance_url_out_of_range by done.
    unfold acquire. rewrite Hlock. simpl. by rewrite <- app_assoc.
Qed.

(** A caller that holds the lock cannot insert. *)
Lemma register_instance_locked_store port url st :
  lock_held st = true →
  active_instances (snd (register_instance port url st)) = active_instances st.
Proof.
  intros Hlock. rewrite register_instance_unfold. simpl.
  destruct (net (requests_made st) _) as [reason|[] body]; try done.
  destruct (parse_plugin_version _ _ _); [done|]. by rewrite Hlock.
Qed.

Lemma get_instance_url_in_range port st :
  lock_held st = false →
  dict_get port (active_instances st) = None →
  8192 ≤ port ≤ 65535 →
  get_instance_url port st =
    match register_instance port None (snd (acquire st)) with
    | (Ret _, st1) =>
        (Ret (JStr (instance_url GHIDRA_HOST port)), snd (release st1))
    | (Raise e, st1) => (Raise e, snd (release st1))
    | (Hang, st1) => (Hang, st1)
    end.
Proof.
  intros Hlock Hget [H1 H2].
  assert ((8192 <=? port) && (port <=? 65535) = true) as Hrange.
  { apply andb_true_iff. split; by apply Z.leb_le. }
  pose proof (register_instance_locked_store port None (snd (acquire st))) as Hstore.
  unfold get_instance_url, bind at 1, with_lock. unfold acquire in *. rewrite Hlock in *.
  unfold bind at 1. unfold get_store at 1. cbn [active_instances fst snd] in *.
  rewrite Hget, Hrange. unfold bind at 1.
  specialize (Hstore eq_refl).
  destruct (register_instance port None _) as [[msg|e|] st1]; simpl in *; try done.
  assert (dict_get port (active_instances st1) = None) as Hget1 by congruence.
  unfold bind, get_store. simpl. rewrite Hget1. done.
Qed.

(** X10. [get_instance_url] for a port that is not stored and lies
    in 8192..65535, by a caller that does not hold the lock: the
    handshake of [register_instance] goes out while the lock is held.
    If the handshake passes, the call never returns: the insert waits
    for the lock that the call itself holds, which stays held, and
    nothing is stored. If the request raises or the status is not a
    success, the default URL of the port is returned and the lock is
    released. *)
Theorem get_instance_url_unstored port st :
  lock_held st = false →
  dict_get port (active_instances st) = None →
  8192 ≤ port ≤ 65535 →
  (∀ body info0,
     net (requests_made st) (instance_url GHIDRA_HOST port +:+ "/plugin-version")
       = HResp true body →
     parse_plugin_version py_repr {["url" := JStr (instance_url GHIDRA_HOST port)]} body
       = inr info0 →
     fst (get_instance_url port st) = Hang ∧
     lock_held (snd (get_instance_url port st)) = true ∧
     active_instances (snd (get_instance_url port st)) = active_instances st ∧
     trace (snd (get_instance_url port st)) =
       trace st ++ [EAcquire;
                    EHttp (instance_url GHIDRA_HOST port +:+ "/plugin-version");
                    EHttp (instance_url GHIDRA_HOST port +:+ "/program")]) ∧
  (probe_fails
     (net (requests_made st) (instance_url GHIDRA_HOST port +:+ "/plugin-version")) = true →
   fst (get_instance_url port st) = Ret (JStr (instance_url GHIDRA_HOST port)) ∧
   lock_held (snd (get_instance_url port st)) = false ∧
   active_instances (snd (get_instance_url port st)) = active_instances st ∧
   trace (snd (get_instance_url port st)) =
     trace st ++ [EAcquire;
                  EHttp (instance_url GHIDRA_HOST port +:+ "/plugin-version");
                  ERelease]) ∧
  http_outside_lock
    ([EAcquire; EHttp (instance_url GHIDRA_HOST port +:+ "/plugin-version")]) = false.
Proof.
  intros Hlock Hget Hrange.
  rewrite get_instance_url_in_range by done.
  rewrite register_instance_unfold. unfold acquire. rewrite Hlock.
  cbn [handshake_url lock_held requests_made snd]. cbv zeta.
  split; [|split; [|done]].
  - intros body info0 Hnet Hparse. rewrite Hnet, Hparse. simpl.
    split; [done|]. split; [done|]. split; [done|]. by rewrite <- !app_assoc.
  - intros Hfail.
    destruct (net (requests_made st) _) as [reason|[] body]; try done; simpl;
      (split; [done|]); (split; [done|]); (split; [done|]);
      by rewrite <- !app_assoc.
Qed.

(** X11. Resolving and then asking for the URL, the order every HTTP
    helper and tool uses: when [get_instance_port] returns a port in a
    reachable state with the lock free, [get_instance_url] on that port
    returns the url of its record, with no request, an unchanged store
    and the lock free again. *)
Theorem resolve_then_url ops port p st1 :
  lock_held (run_ops ops initial_bridge) = false →
  get_instance_port port (run_ops ops initial_bridge) = (Ret p, st1) →
  ∃ info u,
    dict_get p (active_instances st1) = Some info ∧
    info !! "url" = Some (JStr u) ∧
    fst (get_instance_url p st1) = Ret (JStr u) ∧
    active_instances (snd (get_instance_url p st1)) = active_instances st1 ∧
    lock_held (snd (get_instance_url p st1)) = false ∧
    trace (snd (get_instance_url p st1)) = trace st1 ++ [EAcquire; ERelease].
Proof.
  intros Hlock Hres. set (st := run_ops ops initial_bridge) in *.
  pose proof (reachable_wf ops) as Hwf. fold st in Hwf.
  pose proof (get_instance_port_wf port st Hwf) as Hwf1.
  assert (lock_held (snd (get_instance_port port st)) = false ∧
          dict_mem p (active_instances st1) = true) as [Hlock1 Hmem].
  { destruct (dict_mem (resolved_port port st) (active_instances st)) eqn:Hm.
    - rewrite get_instance_port_registered in Hres |- * by done.
      injection Hres as <- <-. done.
    - rewrite get_instance_port_lazy in Hres |- * by done.
      pose proof (register_instance_same_lock (resolved_port port st) None st) as Hl.
      unfold same_lock in Hl.
      destruct (register_instance (resolved_port port st) None st) as [[msg|e|] st'];
        simpl in *; try done.
      destruct (dict_mem (resolved_port port st) (active_instances st')) eqn:Hm';
        [|done].
      injection Hres as <- <-. split; [congruence | done]. }
  rewrite Hres in Hwf1, Hlock1. simpl in Hwf1, Hlock1.
  unfold dict_mem in Hmem.
  destruct (dict_get p (active_instances st1)) as [info|] eqn:Hget; [|done].
  destruct (wf_store_urls _ p info Hwf1) as [u Hu]; [by apply dict_get_elem|].
  exists info, u. split; [done|]. split; [done|].
  rewrite (get_instance_url_stored p st1 info (JStr u)) by done.
  unfold acquire. rewrite Hlock1. simpl. by rewrite <- app_assoc.
Qed.

(** *** A whole refresher cycle *)

Lemma discover_port_same_lock scan_host port found :
  stable same_lock (discover_port scan_host port found).
Proof. unfold discover_port, discover_body. stable_auto. Qed.

(** A caller that does not hold the lock never blocks in the scan. *)
Lemma discover_port_no_hang scan_host port found st :
  lock_held st = false → fst (discover_port scan_host port found st) ≠ Hang.
Proof.
  intros Hlock. rewrite discover_port_unfold.
  destruct (dict_mem port (active_instances st)); [done|].
  destruct (net (requests_made st) _) as [|[] [json_data|]]; try done.
  set (st1 := snd (http_get _ st)).
  assert (lock_held st1 = false) as Hlock1 by done.
  destruct (register_instance_returns port (Some (instance_url scan_host port)) st1 Hlock1)
    as [msg Hmsg].
  unfold catch_value_key, discover_body, bind, lift_exn.
  destruct (py_contains "success" json_data) as [[]|[]]; simpl; try done.
  destruct (py_getitem "success" json_data) as [[]|s]; simpl; try done.
  destruct (py_truthy s); simpl; try done.
  destruct (py_contains "result" json_data) as [[]|[]]; simpl; try done.
  destruct (register_instance port _ st1) as [[m|e|] st2]; simpl in *; try done.
  destruct (py_getitem "result" json_data) as [[]|r]; simpl; done.
Qed.

Lemma discover_loop_no_hang scan_host port_range : ∀ found st,
  lock_held st = false → fst (discover_loop scan_host port_range found st) ≠ Hang.
Proof.
  induction port_range as [|port rest IH]; intros found st Hlock; simpl; [done|].
  unfold bind.
  pose proof (discover_port_no_hang scan_host port found st Hlock) as Hp.
  pose proof (discover_port_same_lock scan_host port found st) as Hl.
  unfold same_lock in Hl.
  destruct (discover_port scan_host port found st) as [[a|e|] st']; simpl in *;
    [apply IH; congruence | done | done].
Qed.

Lemma _discover_instances_no_hang port_range host st :
  lock_held st = false → fst (_discover_instances port_range host st) ≠ Hang.
Proof.
  intros Hlock. unfold _discover_instances, bind.
  pose proof (discover_loop_no_hang
                (match host with Some h => h | None => GHIDRA_HOST end)
                port_range [] st Hlock) as Hl.
  by destruct (discover_loop _ port_range [] st) as [[a|e|] st'].
Qed.

Lemma _discover_instances_adds_only port_range host :
  stable (on_store (adds_only (λ k, k ∈ port_range)))
         (_discover_instances port_range host).
Proof.
  pose proof (discover_loop_adds_only
                (match host with Some h => h | None => GHIDRA_HOST end) port_range).
  unfold _discover_instances. stable_auto.
Qed.

Lemma FULL_DISCOVERY_RANGE_bounds k :
  k ∈ FULL_DISCOVERY_RANGE → 8192 ≤ k < 8212.
Proof.
  intros H. cbv [FULL_DISCOVERY_RANGE map seq DEFAULT_GHIDRA_PORT] in H.
  repeat (apply elem_of_cons in H as [->|H]; [lia|]).
  by apply elem_of_nil in H.
Qed.

Lemma QUICK_DISCOVERY_RANGE_bounds k :
  k ∈ QUICK_DISCOVERY_RANGE → 8192 ≤ k < 8202.
Proof.
  intros H. cbv [QUICK_DISCOVERY_RANGE map seq DEFAULT_GHIDRA_PORT] in H.
  repeat (apply elem_of_cons in H as [->|H]; [lia|]).
  by apply elem_of_nil in H.
Qed.

(** X12. One iteration of the refresher, started in a reachable
    state by a thread that does not hold the lock, always runs to its
    end: it neither blocks nor leaves the lock held, and the sweep
    raises nothing ([info["url"]] and [del] always find their key). It
    stores only ports that were stored before or lie in 8192..8211.
    When the scan raises, the sweep is skipped: that cycle removes no
    record and refreshes none. *)
Theorem refresher_cycle_completes ops :
  lock_held (run_ops ops initial_bridge) = false →
  fst (periodic_discovery_cycle (run_ops ops initial_bridge)) = Ret tt ∧
  lock_held (snd (periodic_discovery_cycle (run_ops ops initial_bridge))) = false ∧
  (∀ r, fst (_discover_instances FULL_DISCOVERY_RANGE None (run_ops ops initial_bridge))
          = Ret r →
        fst (liveness_sweep
               (snd (_discover_instances FULL_DISCOVERY_RANGE None
                       (run_ops ops initial_bridge)))) = Ret tt) ∧
  (∀ k, dict_mem k
          (active_instances (snd (periodic_discovery_cycle (run_ops ops initial_bridge))))
          = true →
        dict_mem k (active_instances (run_ops ops initial_bridge)) = true ∨
        8192 ≤ k < 8212) ∧
  (∀ e, fst (_discover_instances FULL_DISCOVERY_RANGE None (run_ops ops initial_bridge))
          = Raise e →
        ∀ k r, dict_get k (active_instances (run_ops ops initial_bridge)) = Some r →
               dict_get k
                 (active_instances
                    (snd (periodic_discovery_cycle (run_ops ops initial_bridge))))
                 = Some r).
Proof.
  intros Hlock. pose proof (reachable_wf ops) as Hwf.
  set (st := run_ops ops initial_bridge) in *.
  rewrite periodic_discovery_cycle_unfold.
  pose proof (_discover_instances_wf FULL_DISCOVERY_RANGE None st Hwf) as Hwf1.
  pose proof (_discover_instances_same_lock FULL_DISCOVERY_RANGE None st) as Hl1.
  pose proof (_discover_instances_no_hang FULL_DISCOVERY_RANGE None st Hlock) as Hnh.
  pose proof (_discover_instances_adds_only FULL_DISCOVERY_RANGE None st) as Hadd.
  pose proof (_discover_instances_keeps FULL_DISCOVERY_RANGE None st) as Hkeep.
  unfold same_lock in Hl1. unfold on_store in Hadd, Hkeep.
  destruct (_discover_instances FULL_DISCOVERY_RANGE None st) as [[r|e|] st1];
    simpl in *; [| |done].
  - destruct (liveness_sweep_spec st1 Hwf1) as
        (ports & d_sw & st2 & Hsw & Hlock2 & _ & Hkeys & Hget & _); [congruence|].
    rewrite Hsw. simpl. split; [done|]. split; [done|]. split; [done|].
    split; [|done].
    intros k Hk. unfold dict_mem in Hk. rewrite Hget in Hk.
    destruct (decide (k ∈ ports)); [done|].
    assert (dict_mem k (active_instances st1) = true) as Hk1.
    { apply dict_mem_keys. rewrite <- Hkeys. apply dict_mem_keys.
      unfold dict_mem. by destruct (dict_get k d_sw). }
    destruct (Hadd k Hk1) as [?|Hin]; [by left|].
    right. by apply FULL_DISCOVERY_RANGE_bounds.
  - split; [done|]. split; [congruence|]. split; [done|]. split.
    + intros k Hk. destruct (Hadd k Hk) as [?|Hin]; [by left|].
      right. by apply FULL_DISCOVERY_RANGE_bounds.
    + intros e0 _ k r Hget. by apply Hkeep.
Qed.

(** *** The fields a refresher cycle leaves alone *)

Lemma keeps_field_refl key d : keeps_field key d d.
Proof. intros k r H. by exists r. Qed.

Lemma keeps_field_trans key a b c :
  keeps_field key a b → keeps_field key b c → keeps_field key a c.
Proof.
  intros H1 H2 k r H.
  destruct (H1 k r H) as (r1 & Hr1 & Hu1).
  destruct (H2 k r1 Hr1) as (r2 & Hr2 & Hu2).
  exists r2. split; [done | congruence].
Qed.

Lemma keeps_field_set key port info info' d :
  dict_get port d = Some info →
  info' !! key = info !! key →
  keeps_field key d (dict_set port info' d).
Proof.
  intros Hget Hurl k r Hk. destruct (decide (port = k)) as [->|Hne].
  - exists info'. rewrite dict_get_set_eq. split; [done | congruence].
  - exists r. by rewrite dict_get_set_ne.
Qed.

(** Without the [_links] copy, only the six program fields are
    assigned. *)
Lemma parse_program_refresh_other info body key :
  key ∉ program_fields →
  parse_program false info body !! key = info !! key.
Proof.
  unfold program_fields. rewrite !not_elem_of_cons.
  intros (? & ? & ? & ? & ? & ? & _). unfold parse_program.
  destruct body as [info_data|]; [|done].
  destruct (py_contains "result" info_data) as [|[]]; try done.
  destruct (py_getitem "result" info_data) as [|[]]; try done.
  destruct (py_contains ":" _) as [|[]]; try done.
  - destruct (obj_get "programId" _ _); try done.
    destruct (split_colon s) as [[project_name file_path]|]; [|done].
    unfold set_program_fields. by rewrite !lookup_insert_ne.
  - unfold set_program_fields. by rewrite !lookup_insert_ne.
Qed.

Lemma enriched_refresh_other n u info0 key :
  key ∉ program_fields →
  enriched false net n u info0 !! key = info0 !! key.
Proof.
  intros. unfold enriched.
  destruct (net n _) as [|[] body]; try done.
  by apply parse_program_refresh_other.
Qed.

Lemma sweep_keeps_field key items : ∀ acc st,
  key ∉ program_fields →
  NoDup items.*1 →
  (∀ p info, (p, info) ∈ items →
     dict_get p (active_instances st) = Some info ∧
     ∃ u, info !! "url" = Some (JStr u)) →
  keeps_field key (active_instances st) (active_instances (snd (sweep items acc st))).
Proof.
  induction items as [|[port info0] items IH]; intros acc st Hkey Hnd Hitems.
  - apply keeps_field_refl.
  - apply NoDup_cons in Hnd as [Hport Hnd].
    destruct (Hitems port info0) as [Hget0 [u0 Hu0]]; [apply elem_of_cons; by left|].
    simpl. unfold bind.
    destruct (sweep_instance_cases port info0 u0 st Hu0)
      as (st1 & Hlock1 & Hclock & [(Hprobe & -> & Hstore1)|(Hprobe & -> & Hstore1)]).
    + rewrite <- Hstore1. apply IH; [done..|].
      intros p info Hin. rewrite Hstore1. apply Hitems. apply elem_of_cons. by right.
    + eapply keeps_field_trans; [|apply IH; [done..|]].
      * rewrite Hstore1. apply (keeps_field_set key port info0); [done|].
        by apply enriched_refresh_other.
      * intros p info Hin. destruct (Hitems p info) as [Hg Hu];
          [apply elem_of_cons; by right|].
        split; [|done]. rewrite Hstore1, dict_get_set_ne; [done|].
        intros ->. by apply elem_of_keys in Hin.
Qed.

Lemma liveness_sweep_keeps_field key st p info info' :
  key ∉ program_fields →
  wf_store py_repr (active_instances st) →
  dict_get p (active_instances st) = Some info →
  dict_get p (active_instances (snd (liveness_sweep st))) = Some info' →
  info' !! key = info !! key.
Proof.
  intros Hkey [Hnd Hall] Hget Hget'.
  destruct (lock_held st) eqn:Hlock.
  { rewrite liveness_sweep_locked in Hget' by done. simpl in Hget'. congruence. }
  revert Hget'.
  unfold liveness_sweep, with_lock, acquire. rewrite Hlock.
  unfold bind at 1. unfold get_store at 1. cbn [active_instances].
  set (st_a := {| active_instances := active_instances st;
                  current_instance_port := current_instance_port st;
                  lock_held := true;
                  requests_made := requests_made st;
                  trace := trace st ++ [EAcquire] |}).
  assert (∀ p info, (p, info) ∈ active_instances st →
            dict_get p (active_instances st_a) = Some info ∧
            ∃ u, info !! "url" = Some (JStr u)) as Hitems.
  { intros q i Hin. split; [by apply dict_get_NoDup|].
    apply valid_record_url.
    by apply (proj1 (Forall_forall _ _) Hall (q, i)). }
  destruct (sweep_spec (active_instances st) [] st_a Hnd Hitems)
    as (ports & st1 & Hsw & Hlock1 & Hkeys & Hurls & Hsub & _ & Hnodup & _).
  pose proof (sweep_keeps_field key (active_instances st) [] st_a Hkey Hnd Hitems) as Hkf.
  rewrite Hsw in Hkf. simpl in Hkf.
  unfold bind. rewrite Hsw.
  destruct (remove_ports_spec ports st1) as (st2 & Hrm & Hlock2 & Hget2).
  { apply Hnodup; [apply NoDup_nil_2|]. intros q Hq. by apply elem_of_nil in Hq. }
  { intros q [Hq|Hq]%Hsub; [by apply elem_of_nil in Hq|]. by rewrite Hkeys. }
  rewrite Hrm. simpl. rewrite Hget2.
  destruct (decide (p ∈ ports)); [done|]. intros Hget1.
  destruct (Hkf p info Hget) as (r' & Hr' & Heq). congruence.
Qed.

(** X13. A refresher cycle assigns only the six program fields
    ([project], [path], [file], [language_id], [compiler_spec_id],
    [image_base]) of a record it keeps: every other field, among them
    [url], [plugin_version], [api_version] and [_links], is after the
    cycle what it was before. In particular the cycle never repeats
    the version check and never refreshes [_links]. *)
Theorem refresher_keeps_other_fields ops p info info' key :
  key ∉ program_fields →
  dict_get p (active_instances (run_ops ops initial_bridge)) = Some info →
  dict_get p (active_instances (snd (periodic_discovery_cycle (run_ops ops initial_bridge))))
    = Some info' →
  info' !! key = info !! key.
Proof.
  intros Hkey Hget. pose proof (reachable_wf ops) as Hwf.
  set (st := run_ops ops initial_bridge) in *.
  rewrite periodic_discovery_cycle_unfold.
  pose proof (_discover_instances_wf FULL_DISCOVERY_RANGE None st Hwf) as Hwf1.
  pose proof (_discover_instances_keeps FULL_DISCOVERY_RANGE None st p info Hget) as Hget1.
  destruct (_discover_instances FULL_DISCOVERY_RANGE None st) as [[r|e|] st1];
    simpl in *; [|congruence..].
  intros Hget'. apply (liveness_sweep_keeps_field key st1 p info info'); try done.
  by destruct (liveness_sweep st1) as [[[]|e|] st2].
Qed.

End Properties.

(** ** The properties on the scenarios *)

(** Counterexample to C7 as stated: port 8192 was registered with a
    compatible plugin, which is then replaced by one that reports API
    version 9999. Registering the port again returns the mismatch
    message, and the store still has the record of port 8192, with the
    version of the first handshake. *)
Lemma version_mismatch_counterexample :
  fst (register_instance "localhost" example_repr net_downgraded 8192 None
         (run_ops "localhost" example_repr net_downgraded [OpRegister 8192 None]
                  initial_bridge)) =
    Ret "API version mismatch: Plugin reports version 9999, but bridge requires version 2010" ∧
  ∃ info,
    dict_get 8192
      (active_instances
         (snd (register_instance "localhost" example_repr net_downgraded 8192 None
                 (run_ops "localhost" example_repr net_downgraded [OpRegister 8192 None]
                          initial_bridge)))) = Some info ∧
    info !! "api_version" = Some (JInt 2010).
Proof.
  split; [vm_compute; reflexivity|].
  eexists. split; vm_compute; reflexivity.
Qed.


(** Counterexample to C4 as stated: a result object without
    [api_version] is rejected as version 0 and nothing is stored. *)
Lemma absent_api_version_counterexample :
  fst (register_instance "localhost" example_repr net_no_api_version 8192 None
         initial_bridge) =
    Ret "API version mismatch: Plugin reports version 0, but bridge requires version 2010" ∧
  active_instances
    (snd (register_instance "localhost" example_repr net_no_api_version 8192 None
            initial_bridge)) = [].
Proof. split; vm_compute; reflexivity. Qed.

(** Witness of C4 (amended): a JSON body without a result object. *)
Lemma register_instance_absent_api_version_witness :
  fst (register_instance "localhost" example_repr net_no_result 8192 None initial_bridge) =
    Ret "Registered instance on port 8192 at http://localhost:8192".
Proof.
  destruct (register_instance_absent_api_version "localhost" example_repr net_no_result
              8192 None initial_bridge (JObj [("success", JBool true)]))
    as [Hpass _]; [reflexivity|].
  destruct Hpass as [Hmsg _]; [reflexivity..|]. exact Hmsg.
Defined.

(** Counterexample to C2 as stated: a success status with a body that
    is not JSON registers the port. *)
Lemma malformed_handshake_counterexample :
  fst (register_instance "localhost" example_repr net_not_json 8192 None initial_bridge) =
    Ret "Registered instance on port 8192 at http://localhost:8192" ∧
  dict_mem 8192
    (active_instances
       (snd (register_instance "localhost" example_repr net_not_json 8192 None
               initial_bridge))) = true.
Proof. split; vm_compute; reflexivity. Qed.

(** Witness of C2 (amended): the same scenario through the theorem. *)
Lemma register_instance_malformed_bodies_witness :
  dict_mem 8192
    (active_instances
       (snd (register_instance "localhost" example_repr net_not_json 8192 None
               initial_bridge))) = true.
Proof.
  destruct (register_instance_malformed_bodies "localhost" example_repr net_not_json
              8192 None initial_bridge None)
    as [Hpass _]; [reflexivity..|].
  destruct Hpass as [_ Hmem]; [reflexivity|]. exact Hmem.
Defined.

(** Counterexample to C1 as stated: after registering a port whose
    handshake body is not JSON the store holds a record with no
    [api_version] at all. *)
Lemma store_version_counterexample :
  ∃ info,
    dict_get 8192
      (active_instances
         (run_ops "localhost" example_repr net_not_json [OpRegister 8192 None]
                  initial_bridge)) = Some info ∧
    info !! "api_version" = None.
Proof. eexists. split; vm_compute; reflexivity. Qed.

(** Witness of C1 (amended): a compatible plugin on port 8192 is
    stored with version 2010; a plugin that reports 9999 is not
    stored; a body that is not JSON is stored without a version. *)
Lemma store_version_invariant_witness :
  (∃ info,
     dict_get 8192
       (active_instances
          (run_ops "localhost" example_repr net_compatible [OpRegister 8192 None]
                   initial_bridge)) = Some info ∧
     info !! "api_version" = Some (JInt 2010) ∧
     py_eq_int (JInt 2010) REQUIRED_API_VERSION = true) ∧
  active_instances
    (snd (register_instance "localhost" example_repr net_old_plugin 8192 None
            initial_bridge)) = [] ∧
  (∃ info,
     dict_get 8192
       (active_instances
          (snd (register_instance "localhost" example_repr net_not_json 8192 None
                  initial_bridge))) = Some info ∧
     info !! "api_version" = None).
Proof.
  split; [|split].
  - eexists. split; [vm_compute; reflexivity|].
    split; [vm_compute; reflexivity|].
    refine (proj1 (store_version_invariant "localhost" example_repr net_compatible
                     [OpRegister 8192 None]) 8192 _ (JInt 2010) _ _);
      vm_compute; reflexivity.
  - refine (proj1 (proj2 (store_version_invariant "localhost" example_repr net_old_plugin
                            [])) initial_bridge 8192 None _ _ (JInt 9999) _ _ _ _);
      reflexivity.
  - refine (proj2 (proj2 (store_version_invariant "localhost" example_repr net_not_json
                            [])) initial_bridge 8192 None None _ _ _);
      reflexivity.
Defined.

(** Witness of C5, with a compatible plugin on port 8195 only: after
    the current port moved from 8192 to 8195 on the empty store, the
    call with the port omitted registers 8195 and returns it; the call
    for port 8193 sends one handshake there and raises the error that
    names 8193. *)
Lemma resolver_contract_witness :
  fst (get_instance_port "localhost" example_repr net_8195 None
         (snd (set_current_port 8195 initial_bridge))) = Ret 8195 ∧
  fst (get_instance_port "localhost" example_repr net_8195 (Some 8193) initial_bridge) =
    Raise (ValueError "No active Ghidra instance on port 8193") ∧
  trace (snd (get_instance_port "localhost" example_repr net_8195 (Some 8193)
                initial_bridge)) =
    [EHttp "http://localhost:8193/plugin-version"].
Proof.
  destruct (resolver_contract "localhost" example_repr net_8195 (Some 8193) 8195
              initial_bridge) as (_ & _ & Hlazy & _ & Hcur); [reflexivity | done |].
  split; [|split].
  - rewrite Hcur; [|reflexivity]. vm_compute. reflexivity.
  - rewrite Hlazy; [|reflexivity]. vm_compute. reflexivity.
  - rewrite Hlazy; [|reflexivity]. vm_compute. reflexivity.
Defined.

(** Counterexample to C9 as stated, through the tools alone: port 0
    is registered with the address of the plugin on 8192, made the
    current port by [instances_use], and unregistered. The call with
    port 0 then resolves the current port, which is 0: it probes
    [http://localhost:0] and names port 0 in its error. *)
Lemma get_instance_port_zero_counterexample :
  current_instance_port
    (run_ops "localhost" example_repr net_compatible
             [OpRegister 0 (Some "http://localhost:8192"); OpUse 0; OpUnregister 0]
             initial_bridge) = 0 ∧
  fst (get_instance_port "localhost" example_repr net_compatible (Some 0)
         (run_ops "localhost" example_repr net_compatible
                  [OpRegister 0 (Some "http://localhost:8192"); OpUse 0; OpUnregister 0]
                  initial_bridge)) =
    Raise (ValueError "No active Ghidra instance on port 0") ∧
  trace (snd (get_instance_port "localhost" example_repr net_compatible (Some 0)
                (run_ops "localhost" example_repr net_compatible
                         [OpRegister 0 (Some "http://localhost:8192"); OpUse 0;
                          OpUnregister 0]
                         initial_bridge))) =
    trace (run_ops "localhost" example_repr net_compatible
                   [OpRegister 0 (Some "http://localhost:8192"); OpUse 0; OpUnregister 0]
                   initial_bridge) ++
    [EHttp "http://localhost:0/plugin-version"].
Proof. repeat split; vm_compute; reflexivity. Qed.

(** Witness of C9 (amended): the current port is 8192, where a
    compatible plugin answers; port 0 is left out of the store and the
    requests went to the URL of port 8192. *)
Lemma get_instance_port_zero_witness :
  dict_get 0
    (active_instances
       (snd (get_instance_port "localhost" example_repr net_compatible (Some 0)
               initial_bridge))) = None ∧
  instance_url "localhost" 8192 ≠ instance_url "localhost" 0.
Proof.
  destruct (get_instance_port_zero "localhost" example_repr net_compatible initial_bridge)
    as [_ Hcur].
  destruct Hcur as (Hstore & _ & _ & Hurl); [vm_compute; discriminate|].
  split; [exact Hstore | exact Hurl].
Defined.


(** [get_instance_url] on a port that is not stored calls
    [register_instance] inside its critical section: the handshake goes
    out under the lock, and the insert then waits for the lock its own
    caller holds. *)
Lemma get_instance_url_self_deadlock :
  fst (get_instance_url "localhost" example_repr net_compatible 8192 initial_bridge) = Hang ∧
  trace (snd (get_instance_url "localhost" example_repr net_compatible 8192 initial_bridge)) =
    [EAcquire; EHttp "http://localhost:8192/plugin-version";
     EHttp "http://localhost:8192/program"].
Proof. split; vm_compute; reflexivity. Qed.




(** Counterexample to C8 as stated: port 8192 is stored with the url
    of localhost; registering it again with another url stores that
    url under the same port. *)
Lemma reregistration_counterexample :
  ∃ info info',
    dict_get 8192
      (active_instances
         (run_ops "localhost" example_repr net_two_hosts [OpRegister 8192 None]
                  initial_bridge)) = Some info ∧
    info !! "url" = Some (JStr "http://localhost:8192") ∧
    dict_get 8192
      (active_instances
         (run_ops "localhost" example_repr net_two_hosts
                  [OpRegister 8192 None; OpRegister 8192 (Some "http://10.0.0.5:8192")]
                  initial_bridge)) = Some info' ∧
    info' !! "url" = Some (JStr "http://10.0.0.5:8192").
Proof. do 2 eexists. repeat split; vm_compute; reflexivity. Qed.

(** Witness of C8 (amended): the same scenario through the theorem. *)
Lemma reregistration_replaces_record_witness :
  ∃ info',
    dict_get 8192
      (active_instances
         (snd (register_instance "localhost" example_repr net_two_hosts 8192
                 (Some "http://10.0.0.5:8192")
                 (run_ops "localhost" example_repr net_two_hosts [OpRegister 8192 None]
                          initial_bridge)))) = Some info' ∧
    info' !! "url" = Some (JStr "http://10.0.0.5:8192").
Proof.
  eexists. split.
  - refine (proj1 (proj2 (reregistration_replaces_record "localhost" example_repr
                            net_two_hosts [OpRegister 8192 None] 8192
                            (Some "http://10.0.0.5:8192") _ _))
                  (Some (handshake_body (JInt 2010))) _ _ _ _);
      vm_compute; reflexivity.
  - vm_compute. reflexivity.
Defined.

(** Witness of C10: the record of a registered plugin. *)
Lemma stored_records_have_url_witness :
  ∃ info,
    dict_get 8192
      (active_instances
         (run_ops "localhost" example_repr net_compatible [OpRegister 8192 None]
                  initial_bridge)) = Some info ∧
    ∃ u, info !! "url" = Some (JStr u).
Proof.
  eexists. split; [vm_compute; reflexivity|].
  refine (proj1 (stored_records_have_url "localhost" example_repr net_compatible
                   [OpRegister 8192 None]) 8192 _ _).
  vm_compute. reflexivity.
Defined.

(** ** The scenarios of the specification *)

(** An empty registry and a plugin reporting API version 2010: the
    store holds exactly port 8192. With version 9999 it stays empty. *)
Example scenario_register :
  (active_instances
     (snd (register_instance "localhost" example_repr net_compatible 8192 None
             initial_bridge))).*1 = [8192] ∧
  active_instances
    (snd (register_instance "localhost" example_repr net_old_plugin 8192 None
            initial_bridge)) = [].
Proof. split; vm_compute; reflexivity. Qed.

(** Ports 8192 and 8193 are stored, 8193 starts refusing connections:
    one refresher cycle leaves port 8192 only. *)
Example scenario_refresher_prunes :
  (active_instances
     (run_ops "localhost" example_repr net_8193_dies
              [OpRegister 8192 None; OpRegister 8193 None; OpRefresh] initial_bridge)).*1
    = [8192].
Proof. vm_compute. reflexivity. Qed.

(** A scan of 8192..8201 with only 8195 live and compatible finds one
    instance and stores port 8195. *)
Example scenario_discover :
  (∃ instances,
     fst (_discover_instances "localhost" example_repr net_8195 QUICK_DISCOVERY_RANGE None
            initial_bridge) = Ret (1%nat, instances)) ∧
  (active_instances
     (snd (_discover_instances "localhost" example_repr net_8195 QUICK_DISCOVERY_RANGE None
             initial_bridge))).*1 = [8195].
Proof. split; [eexists|]; vm_compute; reflexivity. Qed.

(** ** The further properties on the scenarios *)



(** X5 on a scenario: port 8192 was registered and is unregistered. *)
Lemma instances_unregister_spec_witness :
  fst (instances_unregister 8192
         (run_ops "localhost" example_repr net_compatible [OpRegister 8192 None]
                  initial_bridge)) = Ret "Unregistered instance on port 8192" ∧
  dict_mem 8192
    (active_instances
       (snd (instances_unregister 8192
               (run_ops "localhost" example_repr net_compatible [OpRegister 8192 None]
                        initial_bridge)))) = false.
Proof.
  destruct (instances_unregister_spec 8192
              (run_ops "localhost" example_repr net_compatible [OpRegister 8192 None]
                       initial_bridge)) as (Hmsg & Hmem & _); [reflexivity|].
  split; [|exact Hmem]. rewrite Hmsg. vm_compute. reflexivity.
Defined.

(** X6 on a scenario: port 8192 is registered on the empty store and
    unregistered. *)
Lemma register_unregister_roundtrip_witness :
  active_instances
    (snd (instances_unregister 8192
            (snd (register_instance "localhost" example_repr net_compatible 8192 None
                    initial_bridge)))) = [].
Proof.
  apply (register_unregister_roundtrip "localhost" example_repr net_compatible
           8192 None initial_bridge); reflexivity.
Defined.

(** X7 on a scenario: [instances_use] on port 8192 of the empty store,
    where a compatible plugin answers. *)
Lemma instances_use_spec_witness :
  current_instance_port
    (snd (instances_use "localhost" example_repr net_compatible 8192 initial_bridge)) = 8192.
Proof.
  destruct (instances_use_spec "localhost" example_repr net_compatible 8192 initial_bridge)
    as [(_ & Hcur & _) | (Hmem & _)]; [reflexivity | exact Hcur |].
  vm_compute in Hmem. discriminate Hmem.
Defined.

(** X8 on a scenario: unregistering the current port leaves the
    current port as it was. *)
Lemma current_port_unchanged_witness :
  current_instance_port
    (run_op "localhost" example_repr net_compatible (OpUnregister 8192)
       (run_ops "localhost" example_repr net_compatible
                [OpRegister 8192 None; OpUse 8192] initial_bridge)) = 8192.
Proof.
  rewrite (current_port_unchanged "localhost" example_repr net_compatible
             (OpUnregister 8192)); [|reflexivity].
  vm_compute. reflexivity.
Defined.

(** X9 on a scenario: the URL of port 80, which is not stored and
    lies outside 8192..65535, on the empty store. *)
Lemma get_instance_url_offline_witness :
  fst (get_instance_url "localhost" example_repr net_nothing 80 initial_bridge) =
    Ret (JStr "http://localhost:80") ∧
  trace (snd (get_instance_url "localhost" example_repr net_nothing 80 initial_bridge)) =
    [EAcquire; ERelease].
Proof.
  destruct (get_instance_url_offline "localhost" example_repr net_nothing 80 initial_bridge)
    as [_ Hout]; [reflexivity|].
  destruct Hout as (Hres & _ & _ & Htrace); [reflexivity | lia |].
  split; [exact Hres | exact Htrace].
Defined.

(** X10 on a scenario: the URL of port 8192 on the empty store, with
    a compatible plugin answering there. *)
Lemma get_instance_url_unstored_witness :
  fst (get_instance_url "localhost" example_repr net_compatible 8192 initial_bridge) = Hang ∧
  lock_held
    (snd (get_instance_url "localhost" example_repr net_compatible 8192 initial_bridge)) = true.
Proof.
  destruct (get_instance_url_unstored "localhost" example_repr net_compatible 8192
              initial_bridge) as (Hpass & _ & _); [reflexivity | reflexivity | lia |].
  edestruct Hpass as (Hres & Hlock & _);
    [vm_compute; reflexivity | vm_compute; reflexivity |].
  split; [exact Hres | exact Hlock].
Defined.

(** X11 on a scenario: port 8192 was registered and made current;
    the resolver returns it and its URL is that of the record. *)
Lemma resolve_then_url_witness :
  ∃ u,
    fst (get_instance_url "localhost" example_repr net_compatible 8192
           (run_ops "localhost" example_repr net_compatible
                    [OpRegister 8192 None; OpUse 8192] initial_bridge)) = Ret (JStr u).
Proof.
  destruct (resolve_then_url "localhost" example_repr net_compatible
              [OpRegister 8192 None; OpUse 8192] None 8192
              (run_ops "localhost" example_repr net_compatible
                       [OpRegister 8192 None; OpUse 8192] initial_bridge))
    as (info & u & _ & _ & Hres & _); [reflexivity | vm_compute; reflexivity |].
  exists u. exact Hres.
Defined.
